(** * calcubot: the expression evaluator of [bot.py]

    A shallow embedding of the evaluator behind the [calc] command:
    the Lark [Transformer] subclass [Interpreter] (rules [sum], [product],
    [power], [unary], [function_call] and the helper [nargs]) and the
    driver [do_calc], together with the parts of the Python run time they
    lean on: [decimal.Decimal] under the default context, binary64
    [float], [fractions.Fraction], the [math] functions and exceptions.

    Layout: numbers first ([PyFloat], [Dec]), then values, exceptions and
    the result monad, then the interpreter and [do_calc], then the
    grammar as the specification describes it, and last the theorems. *)

From Stdlib Require Import ZArith NArith List String Ascii Bool Lia.
From Stdlib Require Import DecimalString SpecFloat.
From Stdlib Require DecimalFacts DecimalPos DecimalN Factorial.
Import ListNotations.

Local Open Scope string_scope.
Local Open Scope Z_scope.
Local Set Warnings "-register-all".

(** ** Small helpers *)

(** [str(n)] for a Python [int], in full.  An interpreter with a limit
    on integer string conversion ([sys.get_int_max_str_digits()], 4300
    digits unless configured) raises [ValueError] on a longer text and
    refuses none of 640 digits or fewer; that limit is not part of the
    model. *)
Definition str_of_Z (z : Z) : string := NilZero.string_of_int (Z.to_int z).

(** [str(n)] for a Python [int] known to be non-negative ([len], arities). *)
Definition str_of_nat (n : nat) : string := str_of_Z (Z.of_nat n).

(** Number of decimal digits of a coefficient, [len(str(c))]. *)
Definition ndigits (c : N) : Z := Z.of_nat (Decimal.nb_digits (N.to_uint c)).

(** ** Binary64 floats

    Python's [float] is IEEE 754 binary64.  The operations are those of
    the Standard Library's executable specification [SpecFloat] at
    precision 53 and exponent bound 1024 (round to nearest, ties to
    even). *)
Module PyFloat.

Definition prec : Z := 53.
Definition emax : Z := 1024.

Definition float : Type := spec_float.

Definition add : float -> float -> float := SFadd prec emax.
Definition sub : float -> float -> float := SFsub prec emax.
Definition mul : float -> float -> float := SFmul prec emax.
Definition div : float -> float -> float := SFdiv prec emax.
Definition sqrt : float -> float := SFsqrt prec emax.
Definition ltb : float -> float -> bool := SFltb.

Definition is_nan (x : float) : bool :=
  match x with S754_nan => true | _ => false end.

Definition is_inf (x : float) : bool :=
  match x with S754_infinity _ => true | _ => false end.

Definition is_finite (x : float) : bool :=
  match x with S754_zero _ | S754_finite _ _ _ => true | _ => false end.

Definition is_zero (x : float) : bool :=
  match x with S754_zero _ => true | _ => false end.

(** [x < 0] *)
Definition is_negative (x : float) : bool :=
  match x with
  | S754_finite true _ _ | S754_infinity true => true
  | _ => false
  end.

(** The float nearest to [n / d], with the given sign.  The quotient is
    cut at the exponent the format asks for and the remainder is kept
    as a rounding location, as [SFdiv] does for two mantissas. *)
Definition of_ratio (s : bool) (n d : positive) : float :=
  let '(mz, ez, lz) := SFdiv_core_binary prec emax (Zpos n) 0 (Zpos d) 0 in
  binary_round_aux prec emax s mz ez lz.

(** The float nearest to an integer. *)
Definition of_Z (z : Z) : float := binary_normalize prec emax z 0 false.

(** [sys.float_info.epsilon], 2^-52. *)
Definition epsilon : float := S754_finite false 4503599627370496 (-104).

(** [math.pi], 0x1.921fb54442d18p+1. *)
Definition pi : float := S754_finite false 7074237752028440 (-51).

Definition one : float := S754_finite false 4503599627370496 (-52).
Definition f180 : float := S754_finite false 6333186975989760 (-45).

(** [x.as_integer_ratio()] of a finite float: lowest terms, positive
    denominator. *)
Definition as_integer_ratio (x : float) : option (Z * Z) :=
  match x with
  | S754_zero _ => Some (0, 1)
  | S754_finite s m e =>
      let sg := fun z => if s then Z.opp z else z in
      if 0 <=? e then Some (sg (Zpos m * 2 ^ e), 1)
      else
        let d := 2 ^ (- e) in
        let g := Z.gcd (Zpos m) d in
        Some (sg (Zpos m / g), d / g)
  | _ => None
  end.

(** The finite float has an integer value: C's [dx == floor(dx)]. *)
Definition is_integral (x : float) : bool :=
  match x with
  | S754_zero _ => true
  | S754_finite _ m e => (0 <=? e) || (Zpos m mod 2 ^ (- e) =? 0)
  | _ => false
  end.

(** The integer value of an integral finite float. *)
Definition to_Z (x : float) : Z :=
  match x with
  | S754_finite s m e =>
      let v := if 0 <=? e then Zpos m * 2 ^ e else Zpos m / 2 ^ (- e) in
      if s then - v else v
  | _ => 0
  end.

(** C's [fmod(x, 1.0)]: the fractional part, exact, with the sign of
    [x]; NaN for an infinite or NaN [x]. *)
Definition fmod1 (x : float) : float :=
  match x with
  | S754_zero s => S754_zero s
  | S754_finite s m e =>
      if 0 <=? e then S754_zero s
      else
        let r := Zpos m mod 2 ^ (- e) in
        if r =? 0 then S754_zero s
        else binary_normalize prec emax (if s then - r else r) e s
  | _ => S754_nan
  end.

(** Python's [x % 1] on floats ([float_rem] with divisor 1.0): the
    remainder takes the sign of the divisor. *)
Definition mod1 (x : float) : float :=
  let m := fmod1 x in
  if is_zero m then S754_zero false
  else if is_negative m then add m one
  else m.

End PyFloat.

(** ** Decimals

    [decimal.Decimal] under the default context: precision 28,
    ROUND_HALF_EVEN, Emin = -999999, Emax = 999999, no clamping, and the
    traps InvalidOperation, DivisionByZero and Overflow enabled.  A
    trapped signal is an exception; the other signals only set flags and
    are not modelled.  Each operation computes the exact result and then
    rounds it with [fix_], as the General Decimal Arithmetic
    specification prescribes.  Only the quiet, payload-free NaN occurs (it
    enters through [Decimal(float('nan'))]). *)
Module Dec.

(** The exceptional conditions that end in a trapped signal. *)
Inductive Condition : Type :=
| InvalidOperation
| DivisionUndefined
| DivisionImpossible
| ConversionSyntax
| DivisionByZero
| Overflow.

(** The trapped signals: the classes of the exceptions. *)
Inductive Signal : Type :=
| SigInvalidOperation
| SigDivisionByZero
| SigOverflow.

(** The signal a condition raises ([_condition_map]). *)
Definition signal_of (c : Condition) : Signal :=
  match c with
  | InvalidOperation | DivisionUndefined | DivisionImpossible
  | ConversionSyntax => SigInvalidOperation
  | DivisionByZero => SigDivisionByZero
  | Overflow => SigOverflow
  end.

(** [Finite s c e] is [(-1)^s * c * 10^e]; [sign = true] is negative. *)
Inductive Decimal : Type :=
| Finite (sign : bool) (coeff : N) (exp : Z)
| Infinity (sign : bool)
| NaN.

Inductive outcome (A : Type) : Type :=
| Done (a : A)
| Trap (c : Condition).
Arguments Done {A} a.
Arguments Trap {A} c.

Definition prec : Z := 28.
Definition Emax : Z := 999999.
Definition Emin : Z := -999999.
Definition Etiny : Z := Emin - prec + 1.
Definition Etop : Z := Emax - prec + 1.

Definition pow10 (k : Z) : N := (10 ^ Z.to_N k)%N.

(** [d.adjusted()] of a finite decimal. *)
Definition adjusted (c : N) (e : Z) : Z := e + ndigits c - 1.

(** Round half even: [q] is the kept part, [r] the dropped part out of
    [p]. *)
Definition round_half_even (q r p : N) : N :=
  match N.compare (2 * r) p with
  | Gt => (q + 1)%N
  | Eq => if N.odd q then (q + 1)%N else q
  | Lt => q
  end.

(** [Decimal._fix]: round to the context precision and keep the
    exponent within range. *)
Definition fix_ (d : Decimal) : outcome Decimal :=
  match d with
  | Finite s c e =>
      if N.eqb c 0 then Done (Finite s 0 (Z.min (Z.max e Etiny) Emax))
      else
        let exp_min := ndigits c + e - prec in
        if Etop <? exp_min then Trap Overflow
        else
          let exp_min := Z.max exp_min Etiny in
          if e <? exp_min then
            let p := pow10 (exp_min - e) in
            let q := round_half_even (c / p) (c mod p) p in
            let '(q, exp_min) :=
              if prec <? ndigits q then ((q / 10)%N, exp_min + 1)
              else (q, exp_min) in
            if Etop <? exp_min then Trap Overflow
            else Done (Finite s q exp_min)
          else Done d
  | _ => Done d
  end.

(** *** Construction *)

(** [Decimal(n)] for an [int]. *)
Definition of_Z (z : Z) : Decimal := Finite (z <? 0) (Z.abs_N z) 0.

(** [Decimal(x)] for a [float]: exact. *)
Definition of_float (x : PyFloat.float) : Decimal :=
  match x with
  | S754_zero s => Finite s 0 0
  | S754_infinity s => Infinity s
  | S754_nan => NaN
  | S754_finite s m e =>
      if 0 <=? e then Finite s (Z.to_N (Zpos m * 2 ^ e)) 0
      else
        let d := 2 ^ (- e) in
        let g := Z.gcd (Zpos m) d in
        let k := Z.log2 (d / g) in
        Finite s (Z.to_N (Zpos m / g * 5 ^ k)) (- k)
  end.

Definition one : Decimal := Finite false 1 0.

(** *** Arithmetic *)

Definition negate (d : Decimal) : Decimal :=
  match d with
  | Finite s c e => Finite (negb s) c e
  | Infinity s => Infinity (negb s)
  | NaN => NaN
  end.

(** [a + b] *)
Definition add (a b : Decimal) : outcome Decimal :=
  match a, b with
  | NaN, _ | _, NaN => Done NaN
  | Infinity sa, Infinity sb =>
      if Bool.eqb sa sb then Done a else Trap InvalidOperation
  | Infinity _, _ => Done a
  | _, Infinity _ => Done b
  | Finite sa ca ea, Finite sb cb eb =>
      let e := Z.min ea eb in
      let za := Z.of_N (ca * pow10 (ea - e)) in
      let zb := Z.of_N (cb * pow10 (eb - e)) in
      let z := (if sa then - za else za) + (if sb then - zb else zb) in
      let s :=
        if z =? 0 then (N.eqb ca 0 && N.eqb cb 0 && sa && sb)%bool
        else z <? 0 in
      fix_ (Finite s (Z.abs_N z) e)
  end.

(** [a - b] *)
Definition sub (a b : Decimal) : outcome Decimal := add a (negate b).

(** [a * b] *)
Definition mul (a b : Decimal) : outcome Decimal :=
  match a, b with
  | NaN, _ | _, NaN => Done NaN
  | Infinity sa, Infinity sb => Done (Infinity (xorb sa sb))
  | Infinity sa, Finite sb cb _ =>
      if N.eqb cb 0 then Trap InvalidOperation
      else Done (Infinity (xorb sa sb))
  | Finite sa ca _, Infinity sb =>
      if N.eqb ca 0 then Trap InvalidOperation
      else Done (Infinity (xorb sa sb))
  | Finite sa ca ea, Finite sb cb eb =>
      fix_ (Finite (xorb sa sb) (ca * cb) (ea + eb))
  end.

(** Drop trailing zeros of an exact quotient while the exponent is
    below the ideal one. *)
Fixpoint strip (fuel : nat) (q : N) (e ideal : Z) : N * Z :=
  match fuel with
  | O => (q, e)
  | S fuel' =>
      if (e <? ideal) && N.eqb (q mod 10) 0
      then strip fuel' (q / 10)%N (e + 1) ideal
      else (q, e)
  end.

(** [a / b] *)
Definition div (a b : Decimal) : outcome Decimal :=
  match a, b with
  | NaN, _ | _, NaN => Done NaN
  | Infinity _, Infinity _ => Trap InvalidOperation
  | Infinity sa, Finite sb _ _ => Done (Infinity (xorb sa sb))
  | Finite sa _ _, Infinity sb => Done (Finite (xorb sa sb) 0 Etiny)
  | Finite sa ca ea, Finite sb cb eb =>
      let s := xorb sa sb in
      if N.eqb cb 0 then
        if N.eqb ca 0 then Trap DivisionUndefined
        else Trap DivisionByZero
      else if N.eqb ca 0 then fix_ (Finite s 0 (ea - eb))
      else
        let shift := ndigits cb - ndigits ca + prec + 1 in
        let e := ea - eb - shift in
        let '(q, r) :=
          if 0 <=? shift then N.div_eucl (ca * pow10 shift) cb
          else N.div_eucl ca (cb * pow10 (- shift)) in
        if N.eqb r 0 then
          let '(q, e) :=
            strip (Decimal.nb_digits (N.to_uint q)) q e (ea - eb) in
          fix_ (Finite s q e)
        else
          fix_ (Finite s (if N.eqb (q mod 5) 0 then q + 1 else q)%N e)
  end.

(** [a % b]: the remainder takes the sign of [a]; the integer quotient
    must fit in the precision. *)
Definition rem (a b : Decimal) : outcome Decimal :=
  match a, b with
  | NaN, _ | _, NaN => Done NaN
  | Infinity _, _ => Trap InvalidOperation
  | Finite sa ca ea, Infinity _ => fix_ (Finite sa ca ea)
  | Finite sa ca ea, Finite sb cb eb =>
      if N.eqb cb 0 then
        if N.eqb ca 0 then Trap DivisionUndefined
        else Trap InvalidOperation
      else
        let ideal := Z.min ea eb in
        let expdiff := adjusted ca ea - adjusted cb eb in
        if N.eqb ca 0 then fix_ (Finite sa 0 ideal)
        else if expdiff <=? -2 then
          fix_ (Finite sa (ca * pow10 (ea - ideal)) ideal)
        else if expdiff <=? prec then
          let na := (ca * pow10 (ea - ideal))%N in
          let nb := (cb * pow10 (eb - ideal))%N in
          if (na / nb <? pow10 prec)%N
          then fix_ (Finite sa (na mod nb) ideal)
          else Trap DivisionImpossible
        else Trap DivisionImpossible
  end.

(** [-a]: a zero loses its sign, and the context rounds. *)
Definition neg (a : Decimal) : outcome Decimal :=
  match a with
  | NaN => Done NaN
  | Finite s c e => if N.eqb c 0 then fix_ (Finite false c e)
                    else fix_ (Finite (negb s) c e)
  | Infinity s => Done (Infinity (negb s))
  end.

(** *** Comparison and conversion *)

(** The signed coefficient at exponent [e] (below both exponents). *)
Definition scaled (s : bool) (c : N) (ec e : Z) : Z :=
  let z := Z.of_N (c * pow10 (ec - e)) in if s then - z else z.

(** [a > b]; comparing a NaN signals InvalidOperation. *)
Definition gt (a b : Decimal) : outcome bool :=
  match a, b with
  | NaN, _ | _, NaN => Trap InvalidOperation
  | Infinity sa, Infinity sb => Done (negb sa && sb)
  | Infinity sa, _ => Done (negb sa)
  | _, Infinity sb => Done sb
  | Finite sa ca ea, Finite sb cb eb =>
      let e := Z.min ea eb in
      Done (scaled sb cb eb e <? scaled sa ca ea e)
  end.

(** [d.as_integer_ratio()] of a finite decimal. *)
Definition as_integer_ratio (d : Decimal) : option (Z * Z) :=
  match d with
  | Finite s c e =>
      let sg := fun z => if s then Z.opp z else z in
      if 0 <=? e then Some (sg (Z.of_N (c * pow10 e)), 1)
      else
        let den := Z.of_N (pow10 (- e)) in
        let g := Z.gcd (Z.of_N c) den in
        Some (sg (Z.of_N c / g), den / g)
  | _ => None
  end.

(** [float(d)]: the nearest float. *)
Definition to_float (d : Decimal) : PyFloat.float :=
  match d with
  | NaN => S754_nan
  | Infinity s => S754_infinity s
  | Finite s c e =>
      match c with
      | N0 => S754_zero s
      | Npos p =>
          if 0 <=? e
          then PyFloat.of_ratio s (p * Z.to_pos (Z.of_N (pow10 e))) 1
          else PyFloat.of_ratio s p (Z.to_pos (Z.of_N (pow10 (- e))))
      end
  end.

End Dec.

(** ** Numeric literals

    The text of a NUMBER token: an optional sign, digits with an optional
    fractional part, and an optional exponent.  [Decimal(s)] and
    [float(s)] both read it; the other spellings Python accepts
    (surrounding blanks, underscores, [inf], [nan], digits outside
    ASCII) are not numeric tokens and are rejected here, and an exponent
    is read whatever its size. *)
Module Literal.

Definition digit_of (a : ascii) : option N :=
  let n := N_of_ascii a in
  if ((48 <=? n) && (n <=? 57))%N then Some (n - 48)%N else None.

(** Read a run of digits: the value accumulated, how many were read,
    and what is left. *)
Fixpoint digits_run (s : string) (acc : N) (cnt : Z) : N * Z * string :=
  match s with
  | String a s' =>
      match digit_of a with
      | Some d => digits_run s' (10 * acc + d)%N (cnt + 1)
      | None => (acc, cnt, s)
      end
  | EmptyString => (acc, cnt, s)
  end.

Definition read_sign (s : string) : bool * string :=
  match s with
  | String "-"%char s' => (true, s')
  | String "+"%char s' => (false, s')
  | _ => (false, s)
  end.

Definition is_e (a : ascii) : bool :=
  (Ascii.eqb a "e" || Ascii.eqb a "E")%bool.

(** Sign, coefficient and exponent of a literal. *)
Definition parse (s : string) : option (bool * N * Z) :=
  let '(sg, s1) := read_sign s in
  let '(ci, ni, s2) := digits_run s1 0 0 in
  let '(c, nf, s3) :=
    match s2 with
    | String "."%char s2' => digits_run s2' ci 0
    | _ => (ci, 0, s2)
    end in
  if ni + nf =? 0 then None
  else
    match s3 with
    | EmptyString => Some (sg, c, - nf)
    | String a s4 =>
        if is_e a then
          let '(se, s5) := read_sign s4 in
          let '(x, nx, s6) := digits_run s5 0 0 in
          match s6 with
          | EmptyString =>
              if nx =? 0 then None
              else Some (sg, c, (if se then - Z.of_N x else Z.of_N x) - nf)
          | _ => None
          end
        else None
    end.

End Literal.

(** ** Values, exceptions, results *)

(** The Python objects that flow through the transformer: a [Token] (a
    [str]), a [Decimal], a [float], an [int] ([math.factorial] returns
    one) and the [Tree] that Lark's [__default__] rebuilds for a rule
    without a callback. *)
Inductive Value : Type :=
| VStr (s : string)
| VDecimal (d : Dec.Decimal)
| VFloat (x : PyFloat.float)
| VInt (z : Z)
| VTree (data : string) (children : list Value).

(** Exceptions, by class.  [Debug] is the class of [bot.py];
    [TimeoutDecoratorTimeoutError] is [timeout_decorator.TimeoutError]
    (an [AssertionError]), [TimeoutError] the builtin one;
    [DecimalException c] is the exception of the [decimal] module for
    the condition [c], of class [Dec.signal_of c]. *)
Inductive Exn : Type :=
| ValueError (msg : string)
| TypeError (msg : string)
| IndexError (msg : string)
| OverflowError (msg : string)
| ZeroDivisionError (msg : string)
| TimeoutError (msg : string)
| InvalidStateError
| DecimalException (c : Dec.Condition)
| TimeoutDecoratorTimeoutError
| Debug (args : list Value).

Inductive Result (A : Type) : Type :=
| Ok (a : A)
| Raise (e : Exn).
Arguments Ok {A} a.
Arguments Raise {A} e.

Definition bind {A B : Type} (c : Result A) (k : A -> Result B) : Result B :=
  match c with
  | Ok a => k a
  | Raise e => Raise e
  end.

Notation "x <- c ;; k" := (bind c (fun x => k))
  (at level 61, c at next level, right associativity).

(** A trapped decimal signal is raised as its exception. *)
Definition lift {A : Type} (o : Dec.outcome A) : Result A :=
  match o with
  | Dec.Done a => Ok a
  | Dec.Trap c => Raise (DecimalException c)
  end.

(** ** What the evaluator takes from its surroundings

    The C library's [sin], [cos], [tan] and [log] on doubles;
    [Decimal.__pow__]; whether a call of the named function on the given
    arguments is still running when the five seconds of
    [@timeout(seconds=5)] are over; and [repr] of floats and trees.

    The module imports [asyncio.exceptions], so it runs on Python 3.8 or
    later, and [math.factorial] differs between those interpreters: it
    takes a float with an integer value on Python 3.8 and 3.9
    ([factorial_takes_float] is [true]) and refuses every float on 3.10
    and later ([false]). *)
Record Runtime : Type := {
  libm_sin : PyFloat.float -> PyFloat.float;
  libm_cos : PyFloat.float -> PyFloat.float;
  libm_tan : PyFloat.float -> PyFloat.float;
  libm_log : PyFloat.float -> PyFloat.float;
  decimal_pow : Dec.Decimal -> Dec.Decimal -> Dec.outcome Dec.Decimal;
  expired : string -> list PyFloat.float -> bool;
  float_repr : PyFloat.float -> string;
  tree_repr : string -> list Value -> string;
  factorial_takes_float : bool
}.

(** ** Conversions between values *)

Definition nl : string := String (ascii_of_nat 10) EmptyString.

Definition zeros (k : Z) : string :=
  string_of_list_ascii (repeat "0"%char (Z.to_nat k)).

(** [str(d)] for a decimal: [Decimal.__str__], the scientific notation of
    the decimal arithmetic standard. *)
Definition decimal_str (d : Dec.Decimal) : string :=
  match d with
  | Dec.NaN => "NaN"
  | Dec.Infinity s => (if s then "-" else "") ++ "Infinity"
  | Dec.Finite s c e =>
      let digits := NilZero.string_of_uint (N.to_uint c) in
      let len := Z.of_nat (String.length digits) in
      let leftdigits := e + len in
      let dotplace :=
        if (e <=? 0) && (-6 <? leftdigits) then leftdigits else 1 in
      let intpart :=
        if dotplace <=? 0 then "0"
        else if len <=? dotplace then digits ++ zeros (dotplace - len)
        else substring 0 (Z.to_nat dotplace) digits in
      let fracpart :=
        if dotplace <=? 0 then "." ++ zeros (- dotplace) ++ digits
        else if len <=? dotplace then ""
        else "." ++ substring (Z.to_nat dotplace)
                              (Z.to_nat (len - dotplace)) digits in
      let exp :=
        if leftdigits =? dotplace then ""
        else "E" ++ (if 0 <=? leftdigits - dotplace then "+" else "")
                 ++ str_of_Z (leftdigits - dotplace) in
      (if s then "-" else "") ++ intpart ++ fracpart ++ exp
  end.

(** [str(v)] *)
Definition py_str (R : Runtime) (v : Value) : string :=
  match v with
  | VStr s => s
  | VDecimal d => decimal_str d
  | VFloat x => float_repr R x
  | VInt z => str_of_Z z
  | VTree data children => tree_repr R data children
  end.

(** [Decimal(v)]: exact for every kind of number. *)
Definition to_Decimal (v : Value) : Result Dec.Decimal :=
  match v with
  | VStr s =>
      match Literal.parse s with
      | Some (sg, c, e) => Ok (Dec.Finite sg c e)
      | None => Raise (DecimalException Dec.ConversionSyntax)
      end
  | VDecimal d => Ok d
  | VFloat x => Ok (Dec.of_float x)
  | VInt z => Ok (Dec.of_Z z)
  | VTree _ _ =>
      Raise (TypeError "conversion from Tree to Decimal is not supported")
  end.

(** [float(v)]: the nearest float. *)
Definition to_float (v : Value) : Result PyFloat.float :=
  match v with
  | VStr s =>
      match Literal.parse s with
      | Some (sg, c, e) => Ok (Dec.to_float (Dec.Finite sg c e))
      | None =>
          Raise (ValueError ("could not convert string to float: '"
                             ++ s ++ "'"))
      end
  | VDecimal d => Ok (Dec.to_float d)
  | VFloat x => Ok x
  | VInt z =>
      let x := PyFloat.of_Z z in
      if PyFloat.is_inf x
      then Raise (OverflowError "int too large to convert to float")
      else Ok x
  | VTree _ _ =>
      Raise (TypeError
        "float() argument must be a string or a number, not 'Tree'")
  end.

(** [tuple(map(float, args))] *)
Fixpoint map_float (args : list Value) : Result (list PyFloat.float) :=
  match args with
  | [] => Ok []
  | a :: rest => x <- to_float a ;; xs <- map_float rest ;; Ok (x :: xs)
  end.

(** [v == s] for a string literal [s]: only a token can be equal to it. *)
Definition eq_str (v : Value) (s : string) : bool :=
  match v with
  | VStr t => String.eqb t s
  | _ => false
  end.

(** [args[i]] *)
Definition index (args : list Value) (i : nat) : Result Value :=
  match nth_error args i with
  | Some v => Ok v
  | None => Raise (IndexError "list index out of range")
  end.

(** ** The functions behind the names

    What [function_call] hands to [nargs]: the builtin [abs], the [math]
    functions and the two lambdas, each applied to the tuple of floats.
    [math.sin], [cos], [tan], [sqrt] and [log] go through CPython's
    [math_1] wrapper, which turns a NaN result of a non-NaN argument and
    an infinite result of a finite argument into
    [ValueError("math domain error")].  [math.factorial] is given a
    float, which Python 3.8 and 3.9 accept when it has an integer value
    and Python 3.10 and later refuse. *)
Module Impl.

Definition t : Type := list PyFloat.float -> Result Value.

(** A call with the wrong number of arguments ([nargs] checks the
    count before it calls). *)
Definition bad_call : Result Value :=
  Raise (TypeError "wrong number of arguments").

Definition unary_fn (f : PyFloat.float -> Result Value) : t :=
  fun xs => match xs with [x] => f x | _ => bad_call end.

Definition math_1 (f : PyFloat.float -> PyFloat.float) (x : PyFloat.float)
  : Result PyFloat.float :=
  let r := f x in
  if PyFloat.is_nan r && negb (PyFloat.is_nan x)
  then Raise (ValueError "math domain error")
  else if PyFloat.is_inf r && PyFloat.is_finite x
  then Raise (ValueError "math domain error")
  else Ok r.

Definition float_result (r : Result PyFloat.float) : Result Value :=
  x <- r ;; Ok (VFloat x).

Definition abs : t :=
  unary_fn (fun x => Ok (VFloat (SFabs x))).

Definition sin (R : Runtime) : t :=
  unary_fn (fun x => float_result (math_1 (libm_sin R) x)).

Definition cos (R : Runtime) : t :=
  unary_fn (fun x => float_result (math_1 (libm_cos R) x)).

Definition tan (R : Runtime) : t :=
  unary_fn (fun x => float_result (math_1 (libm_tan R) x)).

Definition sqrt : t :=
  unary_fn (fun x => float_result (math_1 PyFloat.sqrt x)).

(** [lambda x: x * pi / 180] *)
Definition deg_to_rad : t :=
  unary_fn (fun x =>
    Ok (VFloat (PyFloat.div (PyFloat.mul x PyFloat.pi) PyFloat.f180))).

(** [lambda x: x * 180 / pi] *)
Definition rad_to_deg : t :=
  unary_fn (fun x =>
    Ok (VFloat (PyFloat.div (PyFloat.mul x PyFloat.f180) PyFloat.pi))).

Fixpoint fact (n : nat) : Z :=
  match n with
  | O => 1
  | S k => Z.of_nat n * fact k
  end.

Definition LONG_MAX : Z := 9223372036854775807.

(** The text of the [TypeError] of a float given where an [int] is
    expected. *)
Definition float_is_no_integer : string :=
  "'float' object cannot be interpreted as an integer".

(** [math.factorial(x)] for a float [x].  From Python 3.10 on the
    argument has to be an [int]; before, a float goes through
    [dx == floor(dx)] and [PyLong_FromDouble]. *)
Definition factorial (R : Runtime) : t :=
  unary_fn (fun x =>
    if negb (factorial_takes_float R)
    then Raise (TypeError float_is_no_integer)
    else if negb (PyFloat.is_finite x && PyFloat.is_integral x)
    then Raise (ValueError "factorial() only accepts integral values")
    else
      let n := PyFloat.to_Z x in
      if LONG_MAX <? n
      then Raise (OverflowError
        "factorial() argument should not exceed 9223372036854775807")
      else if n <? 0
      then Raise (ValueError "factorial() not defined for negative values")
      else Ok (VInt (fact (Z.to_nat n)))).

(** C's [m_log]: the library's [log] on positive finite arguments. *)
Definition m_log (R : Runtime) (x : PyFloat.float) : PyFloat.float :=
  match x with
  | S754_finite false _ _ => libm_log R x
  | S754_zero _ => S754_infinity true
  | S754_infinity false => x
  | _ => S754_nan
  end.

(** [math.log(x, base)]: the quotient of the two logarithms. *)
Definition log (R : Runtime) : t :=
  fun xs =>
    match xs with
    | [x; base] =>
        num <- math_1 (m_log R) x ;;
        den <- math_1 (m_log R) base ;;
        if PyFloat.is_zero den
        then Raise (ZeroDivisionError "float division by zero")
        else Ok (VFloat (PyFloat.div num den))
    | _ => bad_call
    end.

End Impl.

(** ** The interpreter

    The methods of [class Interpreter(Transformer)].  Each receives the
    list of its node's children, already transformed. *)
Module Interpreter.

Definition sum (args : list Value) : Result Value :=
  op <- index args 1 ;;
  if eq_str op "+" then
    a <- index args 0 ;; x <- to_Decimal a ;;
    b <- index args 2 ;; y <- to_Decimal b ;;
    r <- lift (Dec.add x y) ;; Ok (VDecimal r)
  else if eq_str op "-" then
    a <- index args 0 ;; x <- to_Decimal a ;;
    b <- index args 2 ;; y <- to_Decimal b ;;
    r <- lift (Dec.sub x y) ;; Ok (VDecimal r)
  else Raise InvalidStateError.

(** The [print(repr(args))] at the head of the method writes to the
    standard output and has no part in the result. *)
Definition product (args : list Value) : Result Value :=
  op <- index args 1 ;;
  if eq_str op "*" then
    a <- index args 0 ;; x <- to_Decimal a ;;
    b <- index args 2 ;; y <- to_Decimal b ;;
    r <- lift (Dec.mul x y) ;; Ok (VDecimal r)
  else if eq_str op "/" then
    a <- index args 0 ;; x <- to_Decimal a ;;
    b <- index args 2 ;; y <- to_Decimal b ;;
    r <- lift (Dec.div x y) ;; Ok (VDecimal r)
  else if eq_str op "%" then
    a <- index args 0 ;; x <- to_Decimal a ;;
    b <- index args 2 ;; y <- to_Decimal b ;;
    r <- lift (Dec.rem x y) ;; Ok (VDecimal r)
  else Raise InvalidStateError.

Definition power (R : Runtime) (args : list Value) : Result Value :=
  a <- index args 0 ;; x <- to_Decimal a ;;
  b <- index args 1 ;; y <- to_Decimal b ;;
  r <- lift (decimal_pow R x y) ;; Ok (VDecimal r).

Definition unary (args : list Value) : Result Value :=
  sign <- index args 0 ;;
  if eq_str sign "+" then
    a <- index args 1 ;; x <- to_Decimal a ;; Ok (VDecimal x)
  else
    a <- index args 1 ;; x <- to_Decimal a ;;
    r <- lift (Dec.neg x) ;; Ok (VDecimal r).

(** The inner [caller], under [@timeout(seconds=5)]: when the time is
    over the decorator raises its own [TimeoutError] in place of
    whatever the call was doing. *)
Definition caller (R : Runtime) (fn : string) (f : Impl.t)
    (xs : list PyFloat.float) : Result Value :=
  if expired R fn xs then Raise TimeoutDecoratorTimeoutError else f xs.

Definition nargs (R : Runtime) (n : nat) (args : list Value) (fn : string)
    (f : Impl.t) : Result Value :=
  if negb (Nat.eqb (List.length args) n) then
    Raise (ValueError ("function " ++ fn ++ " takes " ++ str_of_nat n
                       ++ " args, not " ++ str_of_nat (List.length args)))
  else
    xs <- map_float args ;;
    match caller R fn f xs with
    | Raise TimeoutDecoratorTimeoutError =>
        Raise (ValueError ("function " ++ fn ++ " took too long to run and "
                           ++ "was killed. You've been a bad boy."))
    | r => r
    end.

Definition function_call (R : Runtime) (args : list Value) : Result Value :=
  name <- index args 0 ;;
  if eq_str name "abs" then nargs R 1 (tl args) "abs" Impl.abs
  else if eq_str name "sin" then nargs R 1 (tl args) "sin" (Impl.sin R)
  else if eq_str name "cos" then nargs R 1 (tl args) "cos" (Impl.cos R)
  else if eq_str name "tan" then nargs R 1 (tl args) "tan" (Impl.tan R)
  else if eq_str name "deg_to_rad"
  then nargs R 1 (tl args) "deg_to_rad" Impl.deg_to_rad
  else if eq_str name "rad_to_deg"
  then nargs R 1 (tl args) "rad_to_deg" Impl.rad_to_deg
  else if eq_str name "sqrt" then nargs R 1 (tl args) "sqrt" Impl.sqrt
  else if eq_str name "fact"
  then nargs R 1 (tl args) "fact" (Impl.factorial R)
  else if eq_str name "log" then nargs R 2 (tl args) "log" (Impl.log R)
  else if eq_str name "debug" then Raise (Debug (tl args))
  else
    a <- index args 1 ;;
    Raise (ValueError ("unknown function " ++ py_str R name
                       ++ "(" ++ py_str R a ++ ")")).

End Interpreter.

(** ** The transformer

    What [lark.parse] returns: a [Token], or a [Tree] tagged with a rule
    name over children that are tokens or trees. *)
Inductive ParseTree : Type :=
| Token (s : string)
| Tree (data : string) (children : list ParseTree).

(** Induction on parse trees, with the hypothesis for every child. *)
Fixpoint ParseTree_induction (P : ParseTree -> Prop)
    (HToken : forall s, P (Token s))
    (HTree : forall data children, Forall P children -> P (Tree data children))
    (t : ParseTree) : P t :=
  match t with
  | Token s => HToken s
  | Tree data children =>
      HTree data children
        ((fix all (cs : list ParseTree) : Forall P cs :=
            match cs with
            | [] => Forall_nil P
            | c :: cs' =>
                Forall_cons c (ParseTree_induction P HToken HTree c) (all cs')
            end) children)
  end.

(** [Transformer._call_userfunc]: the method named after the rule, or
    [__default__], which rebuilds the tree.  An exception of the method
    leaves wrapped in a [VisitError]; [Raise e] out of [transform] stands
    for [VisitError] with [orig_exc = e]. *)
Definition call_userfunc (R : Runtime) (data : string) (args : list Value)
  : Result Value :=
  if String.eqb data "sum" then Interpreter.sum args
  else if String.eqb data "product" then Interpreter.product args
  else if String.eqb data "power" then Interpreter.power R args
  else if String.eqb data "unary" then Interpreter.unary args
  else if String.eqb data "function_call" then Interpreter.function_call R args
  else Ok (VTree data args).

(** [Transformer.transform]: children first, left to right, tokens left
    as they are, then the node. *)
Section Transformer.

Variable R : Runtime.

Fixpoint transform (t : ParseTree) : Result Value :=
  match t with
  | Token s => Ok (VStr s)
  | Tree data children =>
      args <- (fix transform_children (cs : list ParseTree)
                 : Result (list Value) :=
                 match cs with
                 | [] => Ok []
                 | c :: cs' =>
                     v <- transform c ;;
                     vs <- transform_children cs' ;;
                     Ok (v :: vs)
                 end) children ;;
      call_userfunc R data args
  end.

(** The loop over the children, on its own. *)
Definition transform_children : list ParseTree -> Result (list Value) :=
  fix transform_children (cs : list ParseTree) : Result (list Value) :=
    match cs with
    | [] => Ok []
    | c :: cs' =>
        v <- transform c ;;
        vs <- transform_children cs' ;;
        Ok (v :: vs)
    end.

End Transformer.

(** ** [do_calc] *)

(** What [ctx.send] is given: a string, or (in the debug branch) the
    object itself. *)
Inductive Content : Type :=
| Text (s : string)
| Object (v : Value).

(** [do_calc] sends one message, or an exception leaves it. *)
Inductive Outcome : Type :=
| Sent (c : Content)
| Escaped (e : Exn).

(** The three ways [lark.parse] ends; the errors carry their [str]. *)
Inductive Parse : Type :=
| Parsed (t : ParseTree)
| ParseError (e : string)
| UnexpectedCharacters (e : string).

(** [res % 1] *)
Definition mod_one (res : Value) : Result Value :=
  match res with
  | VDecimal d => r <- lift (Dec.rem d Dec.one) ;; Ok (VDecimal r)
  | VFloat x => Ok (VFloat (PyFloat.mod1 x))
  | VInt _ => Ok (VInt 0)
  | VStr _ =>
      Raise (TypeError "not all arguments converted during string formatting")
  | VTree _ _ =>
      Raise (TypeError "unsupported operand type(s) for %: 'Tree' and 'int'")
  end.

(** [1 - v] *)
Definition one_minus (v : Value) : Result Value :=
  match v with
  | VDecimal d => r <- lift (Dec.sub Dec.one d) ;; Ok (VDecimal r)
  | VFloat x => Ok (VFloat (PyFloat.sub PyFloat.one x))
  | VInt z => Ok (VInt (1 - z))
  | _ => Raise (TypeError "unsupported operand type(s) for -")
  end.

(** [v > float_info.epsilon]; a decimal is compared exactly. *)
Definition gt_epsilon (v : Value) : Result bool :=
  match v with
  | VDecimal d => lift (Dec.gt d (Dec.of_float PyFloat.epsilon))
  | VFloat x => Ok (PyFloat.ltb PyFloat.epsilon x)
  | VInt z => Ok (0 <? z)
  | _ => Raise (TypeError "'>' not supported")
  end.

(** [Fraction(res)]: numerator and denominator in lowest terms. *)
Definition Fraction (res : Value) : Result (Z * Z) :=
  match res with
  | VDecimal Dec.NaN | VFloat S754_nan =>
      Raise (ValueError "cannot convert NaN to integer ratio")
  | VDecimal (Dec.Infinity _) | VFloat (S754_infinity _) =>
      Raise (OverflowError "cannot convert Infinity to integer ratio")
  | VDecimal d =>
      match Dec.as_integer_ratio d with
      | Some r => Ok r
      | None => Raise (ValueError "cannot convert NaN to integer ratio")
      end
  | VFloat x =>
      match PyFloat.as_integer_ratio x with
      | Some r => Ok r
      | None => Raise (ValueError "cannot convert NaN to integer ratio")
      end
  | VInt z => Ok (z, 1)
  | _ => Raise (TypeError "argument should be a string or a Rational")
  end.

(** [str] of a fraction *)
Definition fraction_str (r : Z * Z) : string :=
  let '(n, d) := r in
  if d =? 1 then str_of_Z n else str_of_Z n ++ "/" ++ str_of_Z d.

Definition fraction_only (r : Z * Z) : string :=
  "The answer is `" ++ fraction_str r ++ "`".

Definition fraction_and_float (R : Runtime) (r : Z * Z) (x : PyFloat.float)
  : string :=
  "The answer is `" ++ fraction_str r ++ "`." ++ nl
  ++ "It can also be written as `" ++ float_repr R x ++ "`".

(** The last statement of [do_calc]: the text of the answer. *)
Definition answer (R : Runtime) (res : Value) : Result string :=
  m <- mod_one res ;;
  above <- gt_epsilon m ;;
  below <- (if above then
              m' <- mod_one res ;; o <- one_minus m' ;; gt_epsilon o
            else Ok false) ;;
  if below then
    r <- Fraction res ;; x <- to_float res ;;
    Ok (fraction_and_float R r x)
  else
    r <- Fraction res ;; Ok (fraction_only r).

Definition send_answer (R : Runtime) (res : Value) : Outcome :=
  match answer R res with
  | Ok s => Sent (Text s)
  | Raise e => Escaped e
  end.

Definition condition_name (c : Dec.Condition) : string :=
  match c with
  | Dec.InvalidOperation => "InvalidOperation"
  | Dec.DivisionUndefined => "DivisionUndefined"
  | Dec.DivisionImpossible => "DivisionImpossible"
  | Dec.ConversionSyntax => "ConversionSyntax"
  | Dec.DivisionByZero => "DivisionByZero"
  | Dec.Overflow => "Overflow"
  end.

(** [map(str, e.args)].  The exceptions of the C [decimal] module carry
    the list of the conditions met. *)
Definition exn_args (R : Runtime) (e : Exn) : list string :=
  match e with
  | ValueError m | TypeError m | IndexError m | OverflowError m
  | ZeroDivisionError m | TimeoutError m => [m]
  | InvalidStateError | TimeoutDecoratorTimeoutError => []
  | DecimalException c => ["[<class 'decimal." ++ condition_name c ++ "'>]"]
  | Debug args => map (py_str R) args
  end.

(** [do_calc] from the parsed expression on. *)
Definition evaluate (R : Runtime) (parsed : ParseTree) : Outcome :=
  match parsed with
  | Tree _ _ =>
      match transform R parsed with
      | Ok res => send_answer R res
      | Raise (Debug (a :: _)) => Sent (Object a)
      | Raise (Debug []) => Escaped (IndexError "tuple index out of range")
      | Raise (TimeoutError m) =>
          Sent (Text ("Encountered an error while evaluating: " ++ m))
      | Raise e => Sent (Text (String.concat nl (exn_args R e)))
      end
  | Token s =>
      match to_Decimal (VStr s) with
      | Ok d => send_answer R (VDecimal d)
      | Raise (ValueError m) =>
          Sent (Text ("Encountered an error while evaluating: " ++ m))
      | Raise e => Escaped e
      end
  end.

Definition do_calc (R : Runtime) (lark : string -> Parse) (args : list string)
  : Outcome :=
  match lark (String.concat " " args) with
  | ParseError e => Sent (Text ("Encountered an error while parsing: " ++ e))
  | UnexpectedCharacters e => Sent (Text ("Unexpected characters: " ++ e))
  | Parsed parsed => evaluate R parsed
  end.

(** ** The names [function_call] knows *)

(** The functions dispatched through [nargs], with the arity each is
    given there. *)
Definition registered : list (string * nat) :=
  [("abs", 1%nat); ("sin", 1%nat); ("cos", 1%nat); ("tan", 1%nat);
   ("deg_to_rad", 1%nat); ("rad_to_deg", 1%nat); ("sqrt", 1%nat);
   ("fact", 1%nat); ("log", 2%nat)].

(** Every name [function_call] compares against. *)
Definition known_names : list string := map fst registered ++ ["debug"].

(** The message [nargs] gives on a wrong number of arguments. *)
Definition arity_message (fn : string) (n actual : nat) : string :=
  "function " ++ fn ++ " takes " ++ str_of_nat n ++ " args, not "
  ++ str_of_nat actual.

(** The message [nargs] gives when the time is over. *)
Definition timeout_message (fn : string) : string :=
  "function " ++ fn
  ++ " took too long to run and was killed. You've been a bad boy.".

(** A float or an int, as the functions return them. *)
Definition is_native (v : Value) : bool :=
  match v with VFloat _ | VInt _ => true | _ => false end.

(** The function [function_call] passes to [nargs] under each name. *)
Definition implementation (R : Runtime) (name : string) : Impl.t :=
  if String.eqb name "abs" then Impl.abs
  else if String.eqb name "sin" then Impl.sin R
  else if String.eqb name "cos" then Impl.cos R
  else if String.eqb name "tan" then Impl.tan R
  else if String.eqb name "deg_to_rad" then Impl.deg_to_rad
  else if String.eqb name "rad_to_deg" then Impl.rad_to_deg
  else if String.eqb name "sqrt" then Impl.sqrt
  else if String.eqb name "fact" then Impl.factorial R
  else if String.eqb name "log" then Impl.log R
  else fun _ => Impl.bad_call.

(** A result that is not the [InvalidStateError] of [sum] and
    [product]. *)
Definition clean {A : Type} (r : Result A) : Prop :=
  r <> Raise InvalidStateError.

(** ** The grammar *)

(** Modelled from the spec: the grammar file [calc.lark] that [Lark] is
    built from is not among the sources.  The specification gives the
    productions ([sum], [product], [power], [unary], [function_call],
    number) and the shape of each node: [sum] and [product] hold left
    operand, operator and right operand, [power] base and exponent,
    [unary] sign and operand, [function_call] the name followed by the
    arguments; a number is a bare token.  The function name is left
    unconstrained. *)
Module Grammar.

Definition sum_ops : list string := ["+"; "-"].
Definition product_ops : list string := ["*"; "/"; "%"].
Definition signs : list string := ["+"; "-"].

Definition one_of (l : list string) (s : string) : bool :=
  existsb (String.eqb s) l.

Definition number (s : string) : bool :=
  match Literal.parse s with Some _ => true | None => false end.

Fixpoint generated (t : ParseTree) : bool :=
  match t with
  | Token s => number s
  | Tree data children =>
      if String.eqb data "sum" then
        match children with
        | [l; Token op; r] => generated l && one_of sum_ops op && generated r
        | _ => false
        end
      else if String.eqb data "product" then
        match children with
        | [l; Token op; r] =>
            generated l && one_of product_ops op && generated r
        | _ => false
        end
      else if String.eqb data "power" then
        match children with
        | [b; e] => generated b && generated e
        | _ => false
        end
      else if String.eqb data "unary" then
        match children with
        | [Token sign; x] => one_of signs sign && generated x
        | _ => false
        end
      else if String.eqb data "function_call" then
        match children with
        | Token _ :: args => forallb generated args
        | _ => false
        end
      else false
  end.

End Grammar.

(** The children of a node as they stand in the parse tree, before any
    reduction: a token is its text, a subtree is still a tree. *)
Fixpoint raw (t : ParseTree) : Value :=
  match t with
  | Token s => VStr s
  | Tree data children => VTree data (map raw children)
  end.

Definition is_token (t : ParseTree) : bool :=
  match t with Token _ => true | Tree _ _ => false end.

(** ** Runtimes for the examples *)

(** A runtime in which every call returns in time, on Python 3.8 or
    3.9.  The examples that use it call none of the library
    functions. *)
Definition prompt : Runtime := {|
  libm_sin := fun _ => S754_zero false;
  libm_cos := fun _ => S754_zero false;
  libm_tan := fun _ => S754_zero false;
  libm_log := fun _ => S754_zero false;
  decimal_pow := fun _ _ => Dec.Trap Dec.InvalidOperation;
  expired := fun _ _ => false;
  float_repr := fun _ => "";
  tree_repr := fun _ _ => "";
  factorial_takes_float := true
|}.

(** The same with every call running out of time. *)
Definition stalled : Runtime := {|
  libm_sin := libm_sin prompt;
  libm_cos := libm_cos prompt;
  libm_tan := libm_tan prompt;
  libm_log := libm_log prompt;
  decimal_pow := decimal_pow prompt;
  expired := fun _ _ => true;
  float_repr := float_repr prompt;
  tree_repr := tree_repr prompt;
  factorial_takes_float := factorial_takes_float prompt
|}.

(** [prompt] on Python 3.10 or later. *)
Definition recent : Runtime := {|
  libm_sin := libm_sin prompt;
  libm_cos := libm_cos prompt;
  libm_tan := libm_tan prompt;
  libm_log := libm_log prompt;
  decimal_pow := decimal_pow prompt;
  expired := expired prompt;
  float_repr := float_repr prompt;
  tree_repr := tree_repr prompt;
  factorial_takes_float := false
|}.

(** ** Vocabulary of the further properties *)

(** The number a digit sequence denotes, read left to right from [acc]
    as [Literal.digits_run] reads its characters. *)
Fixpoint uval (d : Decimal.uint) (acc : N) : N :=
  match d with
  | Decimal.Nil => acc
  | Decimal.D0 d => uval d (10 * acc)%N
  | Decimal.D1 d => uval d (10 * acc + 1)%N
  | Decimal.D2 d => uval d (10 * acc + 2)%N
  | Decimal.D3 d => uval d (10 * acc + 3)%N
  | Decimal.D4 d => uval d (10 * acc + 4)%N
  | Decimal.D5 d => uval d (10 * acc + 5)%N
  | Decimal.D6 d => uval d (10 * acc + 6)%N
  | Decimal.D7 d => uval d (10 * acc + 7)%N
  | Decimal.D8 d => uval d (10 * acc + 8)%N
  | Decimal.D9 d => uval d (10 * acc + 9)%N
  end.

(** [ndigits] as a natural number. *)
Definition nd (c : N) : nat := Decimal.nb_digits (N.to_uint c).

(** The integer a sign and a coefficient stand for. *)
Definition signed (s : bool) (c : N) : Z :=
  if s then - Z.of_N c else Z.of_N c.

(** Expressions over integer literals, with the operators of [sum],
    [product] and [unary]. *)
Inductive IExpr : Type :=
| ILit (z : Z)
| IAdd (a b : IExpr)
| ISub (a b : IExpr)
| IMul (a b : IExpr)
| IDiv (a b : IExpr)
| IRem (a b : IExpr)
| INeg (a : IExpr)
| IPos (a : IExpr).

(** Their value: [/] truncates towards zero and [%] is its remainder. *)
Fixpoint denote (e : IExpr) : Z :=
  match e with
  | ILit z => z
  | IAdd a b => denote a + denote b
  | ISub a b => denote a - denote b
  | IMul a b => denote a * denote b
  | IDiv a b => Z.quot (denote a) (denote b)
  | IRem a b => Z.rem (denote a) (denote b)
  | INeg a => - denote a
  | IPos a => denote a
  end.

(** Their parse tree, in the shape the rules index their children. *)
Fixpoint to_tree (e : IExpr) : ParseTree :=
  match e with
  | ILit z => Token (str_of_Z z)
  | IAdd a b => Tree "sum" [to_tree a; Token "+"; to_tree b]
  | ISub a b => Tree "sum" [to_tree a; Token "-"; to_tree b]
  | IMul a b => Tree "product" [to_tree a; Token "*"; to_tree b]
  | IDiv a b => Tree "product" [to_tree a; Token "/"; to_tree b]
  | IRem a b => Tree "product" [to_tree a; Token "%"; to_tree b]
  | INeg a => Tree "unary" [Token "-"; to_tree a]
  | IPos a => Tree "unary" [Token "+"; to_tree a]
  end.

(** Every value along the way has at most 28 digits, no divisor is zero
    and every [/] is exact. *)
Fixpoint in_range (e : IExpr) : bool :=
  (Z.abs (denote e) <? 10 ^ 28)
  && match e with
     | ILit _ => true
     | IAdd a b | ISub a b | IMul a b => in_range a && in_range b
     | IDiv a b =>
         in_range a && in_range b
         && negb (denote b =? 0) && (Z.rem (denote a) (denote b) =? 0)
     | IRem a b => in_range a && in_range b && negb (denote b =? 0)
     | INeg a | IPos a => in_range a
     end.

Definition is_literal (e : IExpr) : bool :=
  match e with ILit _ => true | _ => false end.

(** [reached R t sub]: in the reduction of [t], the subtree [sub] is
    reduced and everything reduced before it succeeds. *)
Inductive reached (R : Runtime) : ParseTree -> ParseTree -> Prop :=
| reached_here (t : ParseTree) : reached R t t
| reached_below (data : string) (pre post : list ParseTree) (c sub : ParseTree)
    (vs : list Value) :
    transform_children R pre = Ok vs ->
    reached R c sub ->
    reached R (Tree data (pre ++ c :: post)) sub.

(** The two timeout classes. *)
Definition is_timeout (e : Exn) : bool :=
  match e with
  | TimeoutError _ | TimeoutDecoratorTimeoutError => true
  | _ => false
  end.

(** A result that is not a timeout error. *)
Definition timeless {A : Type} (r : Result A) : Prop :=
  match r with
  | Ok _ => True
  | Raise e => is_timeout e = false
  end.

(** * Properties *)

(** ** Runs

    The evaluator on the expressions the specification lists, as parse
    trees. *)

Example run_precedence :
  evaluate prompt
    (Tree "sum"
       [Token "2"; Token "+"; Tree "product" [Token "3"; Token "*"; Token "4"]])
  = Sent (Text "The answer is `14`").
Proof. vm_compute. reflexivity. Qed.

Example run_parentheses :
  evaluate prompt
    (Tree "product"
       [Tree "sum" [Token "2"; Token "+"; Token "3"]; Token "*"; Token "4"])
  = Sent (Text "The answer is `20`").
Proof. vm_compute. reflexivity. Qed.

(** [1 / 3] is the decimal of 28 threes; it gets both renderings. *)
Example run_one_third :
  evaluate prompt (Tree "product" [Token "1"; Token "/"; Token "3"])
  = Sent (Text (fraction_and_float prompt
                  (3333333333333333333333333333, 10000000000000000000000000000)
                  (S754_finite false 6004799503160661 (-54)))).
Proof. vm_compute. reflexivity. Qed.

Example run_four_halves :
  evaluate prompt (Tree "product" [Token "4"; Token "/"; Token "2"])
  = Sent (Text "The answer is `2`").
Proof. vm_compute. reflexivity. Qed.

Example run_sqrt_16 :
  evaluate prompt (Tree "function_call" [Token "sqrt"; Token "16"])
  = Sent (Text "The answer is `4`").
Proof. vm_compute. reflexivity. Qed.

Example run_fact_5 :
  evaluate prompt (Tree "function_call" [Token "fact"; Token "5"])
  = Sent (Text "The answer is `120`").
Proof. vm_compute. reflexivity. Qed.

(** The remainder of a negative decimal is negative, so a negative
    fraction is sent without the float. *)
Example run_minus_half :
  evaluate prompt (Tree "unary" [Token "-"; Token "0.5"])
  = Sent (Text "The answer is `-1/2`").
Proof. vm_compute. reflexivity. Qed.

(** The largest number of 28 digits still goes through. *)
Example run_28_digits :
  evaluate prompt (Token "9999999999999999999999999999")
  = Sent (Text "The answer is `9999999999999999999999999999`").
Proof. vm_compute. reflexivity. Qed.

(** ** The result monad and the transformer loop *)

Lemma transform_Tree (R : Runtime) (data : string) (cs : list ParseTree) :
  transform R (Tree data cs)
  = (args <- transform_children R cs ;; call_userfunc R data args).
Proof. reflexivity. Qed.

Lemma transform_children_cons (R : Runtime) (c : ParseTree)
    (cs : list ParseTree) :
  transform_children R (c :: cs)
  = (v <- transform R c ;; vs <- transform_children R cs ;; Ok (v :: vs)).
Proof. reflexivity. Qed.

(** A node whose children reduce is reduced by its rule. *)
Lemma transform_node (R : Runtime) (data : string) (cs : list ParseTree)
    (args : list Value) :
  transform_children R cs = Ok args ->
  transform R (Tree data cs) = call_userfunc R data args.
Proof. intros H. rewrite transform_Tree, H. reflexivity. Qed.

(** The name of a call is a token and stays one. *)
Lemma transform_call (R : Runtime) (name : string) (cs : list ParseTree)
    (args : list Value) :
  transform_children R cs = Ok args ->
  transform R (Tree "function_call" (Token name :: cs))
  = Interpreter.function_call R (VStr name :: args).
Proof.
  intros H. rewrite transform_Tree, transform_children_cons. simpl.
  rewrite H. reflexivity.
Qed.

(** Tokens are handed to the rule as they are. *)
Lemma transform_children_tokens (R : Runtime) (cs : list ParseTree) :
  forallb is_token cs = true -> transform_children R cs = Ok (map raw cs).
Proof.
  induction cs as [|c cs IH]; intros H; [reflexivity|].
  simpl in H. apply andb_prop in H as [Hc Hcs].
  rewrite transform_children_cons, (IH Hcs).
  destruct c; [reflexivity | discriminate].
Qed.

(** What [evaluate] does with an exception that is neither [Debug] nor
    the builtin [TimeoutError]: it sends the joined arguments. *)
Lemma evaluate_ValueError (R : Runtime) (data : string)
    (cs : list ParseTree) (m : string) :
  transform R (Tree data cs) = Raise (ValueError m) ->
  evaluate R (Tree data cs) = Sent (Text m).
Proof.
  intros H. unfold evaluate. rewrite H. simpl.
  f_equal.
Qed.

(** ** [nargs] *)

Section Nargs.

Variable R : Runtime.
Variables (n : nat) (args : list Value) (fn : string) (f : Impl.t).

Lemma nargs_arity :
  List.length args <> n ->
  Interpreter.nargs R n args fn f
  = Raise (ValueError (arity_message fn n (List.length args))).
Proof.
  intros H. unfold Interpreter.nargs.
  apply Nat.eqb_neq in H. rewrite H. reflexivity.
Qed.

Lemma nargs_expired (xs : list PyFloat.float) :
  List.length args = n ->
  map_float args = Ok xs ->
  expired R fn xs = true ->
  Interpreter.nargs R n args fn f = Raise (ValueError (timeout_message fn)).
Proof.
  intros Hn Hxs Hexp. unfold Interpreter.nargs, Interpreter.caller.
  apply Nat.eqb_eq in Hn. rewrite Hn, Hxs. simpl. rewrite Hexp.
  reflexivity.
Qed.

Lemma nargs_returns (xs : list PyFloat.float) (v : Value) :
  List.length args = n ->
  map_float args = Ok xs ->
  expired R fn xs = false ->
  f xs = Ok v ->
  Interpreter.nargs R n args fn f = Ok v.
Proof.
  intros Hn Hxs Hexp Hf. unfold Interpreter.nargs, Interpreter.caller.
  apply Nat.eqb_eq in Hn. rewrite Hn, Hxs. simpl. rewrite Hexp, Hf.
  reflexivity.
Qed.

Lemma nargs_in_time (xs : list PyFloat.float) :
  List.length args = n ->
  map_float args = Ok xs ->
  expired R fn xs = false ->
  Interpreter.nargs R n args fn f
  = match f xs with
    | Raise TimeoutDecoratorTimeoutError =>
        Raise (ValueError (timeout_message fn))
    | r => r
    end.
Proof.
  intros Hn Hxs Hexp. unfold Interpreter.nargs, Interpreter.caller.
  apply Nat.eqb_eq in Hn. rewrite Hn, Hxs. simpl. rewrite Hexp.
  reflexivity.
Qed.

End Nargs.

(** ** Dispatch *)

(** Case analysis on a registered name. *)
Ltac registered_cases H :=
  unfold registered in H; simpl in H;
  repeat (destruct H as [H | H]; [inversion H; subst; clear H |]);
  [.. | contradiction].

Lemma function_call_registered (R : Runtime) (name : string) (n : nat)
    (args : list Value) :
  In (name, n) registered ->
  Interpreter.function_call R (VStr name :: args)
  = Interpreter.nargs R n args name (implementation R name).
Proof.
  intros H. registered_cases H; reflexivity.
Qed.

Lemma function_call_unknown (R : Runtime) (name : string)
    (args : list Value) :
  ~ In name known_names ->
  Interpreter.function_call R (VStr name :: args)
  = (a <- index (VStr name :: args) 1 ;;
     Raise (ValueError ("unknown function " ++ name
                        ++ "(" ++ py_str R a ++ ")"))).
Proof.
  intros H. unfold Interpreter.function_call. simpl.
  assert (Hne : forall s, In s known_names -> String.eqb name s = false).
  { intros s Hs. apply String.eqb_neq. intros ->. apply H, Hs. }
  unfold known_names, registered in Hne. simpl in Hne.
  rewrite !Hne by tauto. reflexivity.
Qed.

(** Every implementation returns a float or an int, never a decimal. *)
Lemma implementation_native (R : Runtime) (name : string) (n : nat)
    (xs : list PyFloat.float) (v : Value) :
  In (name, n) registered ->
  implementation R name xs = Ok v ->
  is_native v = true.
Proof.
  intros H Hv. registered_cases H;
    unfold implementation in Hv; simpl in Hv;
    unfold Impl.abs, Impl.sin, Impl.cos, Impl.tan, Impl.sqrt,
      Impl.deg_to_rad, Impl.rad_to_deg, Impl.factorial, Impl.log,
      Impl.unary_fn, Impl.float_result, Impl.math_1, Impl.bad_call,
      bind in Hv;
    destruct xs as [|x [|y [|z xs]]]; try discriminate;
    repeat match type of Hv with
           | context [if ?c then _ else _] => destruct c
           end;
    try discriminate; inversion Hv; reflexivity.
Qed.

(** A float or an int converts to a decimal without loss and without
    fail. *)
Lemma native_to_Decimal (v : Value) :
  is_native v = true -> exists d, to_Decimal v = Ok d.
Proof.
  destruct v; try discriminate; intros _; eexists; reflexivity.
Qed.

(** ** Time budget *)

(** C1, as amended: when the call of a registered function, made with the
    number of arguments the function takes, is still running at the end
    of the time budget, the reduction of the call fails with a
    [ValueError] whose message names the function, and [do_calc] sends
    that message through its last branch. *)
Theorem timeout_raises_ValueError (R : Runtime) (name : string) (n : nat)
    (cs : list ParseTree) (args : list Value) (xs : list PyFloat.float) :
  In (name, n) registered ->
  transform_children R cs = Ok args ->
  List.length args = n ->
  map_float args = Ok xs ->
  expired R name xs = true ->
  transform R (Tree "function_call" (Token name :: cs))
  = Raise (ValueError (timeout_message name))
  /\ evaluate R (Tree "function_call" (Token name :: cs))
     = Sent (Text (timeout_message name)).
Proof.
  intros Hreg Hcs Hn Hxs Hexp.
  assert (Ht : transform R (Tree "function_call" (Token name :: cs))
               = Raise (ValueError (timeout_message name))).
  { rewrite (transform_call R name cs args Hcs).
    rewrite (function_call_registered R name n args Hreg).
    apply nargs_expired with (xs := xs); assumption. }
  split; [exact Ht | apply evaluate_ValueError, Ht].
Qed.

Lemma timeout_raises_ValueError_witness :
  transform stalled (Tree "function_call" [Token "fact"; Token "5"])
  = Raise (ValueError (timeout_message "fact"))
  /\ evaluate stalled (Tree "function_call" [Token "fact"; Token "5"])
     = Sent (Text (timeout_message "fact")).
Proof.
  apply (timeout_raises_ValueError stalled "fact" 1 [Token "5"] [VStr "5"]
           [S754_finite false 5629499534213120 (-50)]).
  - simpl. do 7 right. left. reflexivity.
  - reflexivity.
  - reflexivity.
  - vm_compute. reflexivity.
  - reflexivity.
Defined.

(** C1, as stated, fails: [fact(5)] running out of time does not end in
    a [TimeoutError]. *)
Lemma timeout_is_not_TimeoutError :
  expired stalled "fact" [S754_finite false 5629499534213120 (-50)] = true
  /\ map_float [VStr "5"] = Ok [S754_finite false 5629499534213120 (-50)]
  /\ forall m : string,
       transform stalled (Tree "function_call" [Token "fact"; Token "5"])
       <> Raise (TimeoutError m).
Proof.
  split; [reflexivity|]. split; [vm_compute; reflexivity|].
  intros m. vm_compute. discriminate.
Qed.

(** ** Arity *)

(** C6: a registered function called with a number of arguments other
    than its arity fails with a [ValueError] whose message gives the
    name, the arity and the number of arguments received; [do_calc] sends
    that message. *)
Theorem arity_mismatch_raises_ValueError (R : Runtime) (name : string)
    (n : nat) (cs : list ParseTree) (args : list Value) :
  In (name, n) registered ->
  transform_children R cs = Ok args ->
  List.length args <> n ->
  transform R (Tree "function_call" (Token name :: cs))
  = Raise (ValueError ("function " ++ name ++ " takes " ++ str_of_nat n
                       ++ " args, not " ++ str_of_nat (List.length args)))
  /\ evaluate R (Tree "function_call" (Token name :: cs))
     = Sent (Text ("function " ++ name ++ " takes " ++ str_of_nat n
                   ++ " args, not " ++ str_of_nat (List.length args))).
Proof.
  intros Hreg Hcs Hn.
  assert (Ht : transform R (Tree "function_call" (Token name :: cs))
               = Raise (ValueError (arity_message name n (List.length args)))).
  { rewrite (transform_call R name cs args Hcs).
    rewrite (function_call_registered R name n args Hreg).
    apply nargs_arity, Hn. }
  split; [exact Ht | apply evaluate_ValueError, Ht].
Qed.

Lemma arity_mismatch_raises_ValueError_witness :
  transform prompt (Tree "function_call" [Token "sqrt"; Token "1"; Token "2"])
  = Raise (ValueError "function sqrt takes 1 args, not 2")
  /\ evaluate prompt
       (Tree "function_call" [Token "sqrt"; Token "1"; Token "2"])
     = Sent (Text "function sqrt takes 1 args, not 2").
Proof.
  apply (arity_mismatch_raises_ValueError prompt "sqrt" 1
           [Token "1"; Token "2"] [VStr "1"; VStr "2"]).
  - simpl. do 6 right. left. reflexivity.
  - reflexivity.
  - simpl. lia.
Defined.

(** ** Unknown names *)

Lemma not_known (name : string) :
  existsb (String.eqb name) known_names = false -> ~ In name known_names.
Proof.
  intros H Hin.
  assert (Hex : existsb (String.eqb name) known_names = true).
  { apply existsb_exists. exists name. split; [exact Hin|].
    apply String.eqb_refl. }
  rewrite H in Hex. discriminate.
Qed.

(** C9: a call of a name [function_call] does not know fails with a
    [ValueError] naming it when there is at least one argument; with no
    argument, building the message reads [args[1]] past the end of the
    list and an [IndexError] is raised in its place. *)
Theorem unknown_function_needs_argument (R : Runtime) (name : string)
    (cs : list ParseTree) (args : list Value) :
  ~ In name known_names ->
  transform_children R cs = Ok args ->
  transform R (Tree "function_call" (Token name :: cs))
  = match args with
    | [] => Raise (IndexError "list index out of range")
    | a :: _ => Raise (ValueError ("unknown function " ++ name
                                   ++ "(" ++ py_str R a ++ ")"))
    end.
Proof.
  intros Hname Hcs.
  rewrite (transform_call R name cs args Hcs).
  rewrite (function_call_unknown R name args Hname).
  destruct args; reflexivity.
Qed.

Lemma unknown_function_needs_argument_witness :
  transform prompt (Tree "function_call" [Token "foo"])
  = Raise (IndexError "list index out of range").
Proof.
  apply (unknown_function_needs_argument prompt "foo" [] []).
  - apply not_known. reflexivity.
  - reflexivity.
Defined.

(** ** What a call returns *)

(** C3, as amended: when the call of a registered function returns
    within the time budget, the reduction of the call is the result of
    the implementation, unchanged: a float, or an int for [fact], never
    a decimal.  [do_calc] formats that native value when the call is the
    whole expression; an enclosing [sum], [product], [power] or [unary]
    converts it with [Decimal(...)], which accepts it. *)
Theorem call_result_stays_native (R : Runtime) (name : string) (n : nat)
    (cs : list ParseTree) (args : list Value) (xs : list PyFloat.float)
    (v : Value) :
  In (name, n) registered ->
  transform_children R cs = Ok args ->
  List.length args = n ->
  map_float args = Ok xs ->
  expired R name xs = false ->
  implementation R name xs = Ok v ->
  transform R (Tree "function_call" (Token name :: cs)) = Ok v
  /\ is_native v = true
  /\ evaluate R (Tree "function_call" (Token name :: cs)) = send_answer R v
  /\ exists d, to_Decimal v = Ok d.
Proof.
  intros Hreg Hcs Hn Hxs Hexp Hv.
  assert (Ht : transform R (Tree "function_call" (Token name :: cs)) = Ok v).
  { rewrite (transform_call R name cs args Hcs).
    rewrite (function_call_registered R name n args Hreg).
    apply nargs_returns with (xs := xs); assumption. }
  assert (Hnat : is_native v = true)
    by exact (implementation_native R name n xs v Hreg Hv).
  repeat split.
  - exact Ht.
  - exact Hnat.
  - unfold evaluate. rewrite Ht. reflexivity.
  - apply native_to_Decimal, Hnat.
Qed.

Lemma call_result_stays_native_witness :
  transform prompt (Tree "function_call" [Token "sqrt"; Token "16"])
  = Ok (VFloat (S754_finite false 4503599627370496 (-50)))
  /\ is_native (VFloat (S754_finite false 4503599627370496 (-50))) = true
  /\ evaluate prompt (Tree "function_call" [Token "sqrt"; Token "16"])
     = send_answer prompt (VFloat (S754_finite false 4503599627370496 (-50)))
  /\ exists d,
       to_Decimal (VFloat (S754_finite false 4503599627370496 (-50))) = Ok d.
Proof.
  apply (call_result_stays_native prompt "sqrt" 1 [Token "16"] [VStr "16"]
           [S754_finite false 4503599627370496 (-48)]).
  - simpl. do 6 right. left. reflexivity.
  - reflexivity.
  - reflexivity.
  - vm_compute. reflexivity.
  - reflexivity.
  - vm_compute. reflexivity.
Defined.

(** C3, as stated, fails: [sqrt(16)] returns in time and the value that
    goes on to the formatter is the float 4.0, not a decimal. *)
Lemma sqrt_result_is_a_float :
  expired prompt "sqrt" [S754_finite false 4503599627370496 (-48)] = false
  /\ transform prompt (Tree "function_call" [Token "sqrt"; Token "16"])
     = Ok (VFloat (S754_finite false 4503599627370496 (-50)))
  /\ forall d : Dec.Decimal,
       transform prompt (Tree "function_call" [Token "sqrt"; Token "16"])
       <> Ok (VDecimal d).
Proof.
  split; [reflexivity|]. split; [vm_compute; reflexivity|].
  intros d. vm_compute. discriminate.
Qed.

(** ** [debug] *)

(** C4, as amended: when the arguments of a [debug] call all reduce, the
    reduction of the call computes nothing of its own and raises [Debug]
    with the list of the reduced arguments; arguments that are bare
    tokens are carried as their text.  With at least one argument,
    [do_calc] answers in its [Debug] branch, by sending the first. *)
Theorem debug_carries_reduced_arguments (R : Runtime) (cs : list ParseTree)
    (args : list Value) :
  transform_children R cs = Ok args ->
  transform R (Tree "function_call" (Token "debug" :: cs)) = Raise (Debug args)
  /\ (forallb is_token cs = true -> args = map raw cs)
  /\ (forall a rest, args = a :: rest ->
      evaluate R (Tree "function_call" (Token "debug" :: cs))
      = Sent (Object a)).
Proof.
  intros Hcs.
  assert (Ht : transform R (Tree "function_call" (Token "debug" :: cs))
               = Raise (Debug args)).
  { rewrite (transform_call R "debug" cs args Hcs). reflexivity. }
  repeat split.
  - exact Ht.
  - intros Htok. rewrite (transform_children_tokens R cs Htok) in Hcs.
    inversion Hcs. reflexivity.
  - intros a rest ->. unfold evaluate. rewrite Ht. reflexivity.
Qed.

Lemma debug_carries_reduced_arguments_witness :
  transform prompt (Tree "function_call" [Token "debug"; Token "3"; Token "4"])
  = Raise (Debug [VStr "3"; VStr "4"])
  /\ (forallb is_token [Token "3"; Token "4"] = true ->
      [VStr "3"; VStr "4"] = map raw [Token "3"; Token "4"])
  /\ (forall a rest, [VStr "3"; VStr "4"] = a :: rest ->
      evaluate prompt
        (Tree "function_call" [Token "debug"; Token "3"; Token "4"])
      = Sent (Object a)).
Proof.
  apply (debug_carries_reduced_arguments prompt [Token "3"; Token "4"]
           [VStr "3"; VStr "4"]).
  reflexivity.
Defined.

(** C4, as stated, fails: in [debug(1 + 2)] the sum is computed first,
    and the signal carries the number 3, not the unevaluated argument. *)
Lemma debug_argument_is_evaluated :
  transform prompt
    (Tree "function_call"
       [Token "debug"; Tree "sum" [Token "1"; Token "+"; Token "2"]])
  = Raise (Debug [VDecimal (Dec.Finite false 3 0)])
  /\ transform prompt
       (Tree "function_call"
          [Token "debug"; Tree "sum" [Token "1"; Token "+"; Token "2"]])
     <> Raise (Debug (map raw [Tree "sum" [Token "1"; Token "+"; Token "2"]])).
Proof.
  split; [vm_compute; reflexivity|].
  vm_compute. discriminate.
Qed.

(** C10, as amended: when [debug] is called with one argument or more
    and all of them reduce, what [do_calc] sends is the first argument
    as the transformer reduced it, unformatted: the raw text for a bare
    token, the computed value otherwise.  The arguments after it play no
    part in the output. *)
Theorem debug_sends_first_argument (R : Runtime) (cs : list ParseTree)
    (a : Value) (rest : list Value) :
  transform_children R cs = Ok (a :: rest) ->
  evaluate R (Tree "function_call" (Token "debug" :: cs)) = Sent (Object a)
  /\ (forall s cs', cs = Token s :: cs' -> a = VStr s).
Proof.
  intros Hcs. split.
  - unfold evaluate.
    rewrite (transform_call R "debug" cs (a :: rest) Hcs). reflexivity.
  - intros s cs' ->. rewrite transform_children_cons in Hcs. simpl in Hcs.
    destruct (transform_children R cs'); simpl in Hcs; inversion Hcs.
    reflexivity.
Qed.

Lemma debug_sends_first_argument_witness :
  evaluate prompt (Tree "function_call" [Token "debug"; Token "3"; Token "4"])
  = Sent (Object (VStr "3"))
  /\ (forall s cs', [Token "3"; Token "4"] = Token s :: cs' ->
      VStr "3" = VStr s).
Proof.
  apply (debug_sends_first_argument prompt [Token "3"; Token "4"]
           (VStr "3") [VStr "4"]).
  reflexivity.
Defined.

(** C10, as stated, fails: in [debug(1 + 2, 4)] the first argument is
    reduced before [debug] is reached, and what is sent is the number 3,
    not the argument as it was written. *)
Lemma debug_first_argument_is_reduced :
  evaluate prompt
    (Tree "function_call"
       [Token "debug"; Tree "sum" [Token "1"; Token "+"; Token "2"]; Token "4"])
  = Sent (Object (VDecimal (Dec.Finite false 3 0)))
  /\ evaluate prompt
       (Tree "function_call"
          [Token "debug"; Tree "sum" [Token "1"; Token "+"; Token "2"];
           Token "4"])
     <> Sent (Object (raw (Tree "sum" [Token "1"; Token "+"; Token "2"]))).
Proof.
  split; [vm_compute; reflexivity|].
  vm_compute. discriminate.
Qed.

(** ** The domain of [fact] *)

(** The integer value of a negative integral float is negative. *)
Lemma to_Z_negative (m : positive) (e : Z) :
  PyFloat.is_integral (S754_finite true m e) = true ->
  PyFloat.to_Z (S754_finite true m e) < 0.
Proof.
  unfold PyFloat.is_integral, PyFloat.to_Z. intros H.
  destruct (0 <=? e) eqn:He.
  - apply Z.leb_le in He.
    assert (0 < 2 ^ e) by (apply Z.pow_pos_nonneg; lia).
    assert (0 < Z.pos m * 2 ^ e) by (apply Z.mul_pos_pos; lia). lia.
  - apply Z.leb_gt in He. simpl in H. apply Z.eqb_eq in H.
    assert (Hd : 0 < 2 ^ (- e)) by (apply Z.pow_pos_nonneg; lia).
    pose proof (Z.div_mod (Z.pos m) (2 ^ (- e)) ltac:(lia)) as Hdm.
    rewrite H in Hdm.
    assert (0 < Z.pos m / 2 ^ (- e)) by nia. lia.
Qed.

(** Where [math.factorial] takes floats, it refuses one that is
    negative or has no integer value (an infinity and NaN have none). *)
Lemma factorial_domain (R : Runtime) (x : PyFloat.float) :
  factorial_takes_float R = true ->
  PyFloat.is_negative x = true \/ PyFloat.is_integral x = false ->
  exists m, Impl.factorial R [x] = Raise (ValueError m).
Proof.
  intros Hv H. unfold Impl.factorial, Impl.unary_fn. rewrite Hv.
  cbn [negb].
  destruct (PyFloat.is_finite x && PyFloat.is_integral x) eqn:E; simpl.
  - apply andb_prop in E as [Hfin Hint].
    destruct H as [Hneg | Hni]; [| congruence].
    destruct x as [s | s | | s m e]; try discriminate.
    destruct s; try discriminate.
    pose proof (to_Z_negative m e Hint) as Hlt.
    assert (H1 : (Impl.LONG_MAX <? PyFloat.to_Z (S754_finite true m e))
                 = false).
    { apply Z.ltb_ge. unfold Impl.LONG_MAX. lia. }
    assert (H2 : (PyFloat.to_Z (S754_finite true m e) <? 0) = true).
    { apply Z.ltb_lt. exact Hlt. }
    rewrite H1, H2. eexists. reflexivity.
  - eexists. reflexivity.
Qed.

(** Where [math.factorial] takes no float, every call of [fact] that
    returns in time fails with the [TypeError] of the float that [nargs]
    hands over, and [do_calc] sends its text. *)
Lemma fact_refuses_every_float (R : Runtime) (c : ParseTree) (a : Value)
    (x : PyFloat.float) :
  factorial_takes_float R = false ->
  transform R c = Ok a ->
  to_float a = Ok x ->
  expired R "fact" [x] = false ->
  transform R (Tree "function_call" [Token "fact"; c])
  = Raise (TypeError Impl.float_is_no_integer)
  /\ evaluate R (Tree "function_call" [Token "fact"; c])
     = Sent (Text Impl.float_is_no_integer).
Proof.
  intros Hv Hc Ha Hexp.
  assert (Hcs : transform_children R [c] = Ok [a]).
  { rewrite transform_children_cons, Hc. reflexivity. }
  assert (Hxs : map_float [a] = Ok [x]).
  { unfold map_float. rewrite Ha. reflexivity. }
  assert (Ht : transform R (Tree "function_call" [Token "fact"; c])
               = Raise (TypeError Impl.float_is_no_integer)).
  { rewrite (transform_call R "fact" [c] [a] Hcs).
    change (Interpreter.function_call R [VStr "fact"; a])
      with (Interpreter.nargs R 1 [a] "fact" (Impl.factorial R)).
    rewrite (nargs_in_time R 1 [a] "fact" (Impl.factorial R) [x]); auto.
    unfold Impl.factorial, Impl.unary_fn. rewrite Hv. reflexivity. }
  split; [exact Ht|]. unfold evaluate. rewrite Ht. reflexivity.
Qed.

(** C7, as amended: [fact] applied to one argument whose conversion to
    float is negative or has no integer value fails, and [do_calc] sends
    the text of the failure.  On Python 3.8 and 3.9 the failure is a
    [ValueError]; on Python 3.10 and later, where [math.factorial] takes
    no float at all, it is a [TypeError] (when the call returns in
    time).  [fact(-1)] is such a call. *)
Theorem fact_domain_failure (R : Runtime) (c : ParseTree)
    (a : Value) (x : PyFloat.float) :
  transform R c = Ok a ->
  to_float a = Ok x ->
  PyFloat.is_negative x = true \/ PyFloat.is_integral x = false ->
  (factorial_takes_float R = true ->
   exists m,
     transform R (Tree "function_call" [Token "fact"; c])
     = Raise (ValueError m)
     /\ evaluate R (Tree "function_call" [Token "fact"; c]) = Sent (Text m))
  /\ (factorial_takes_float R = false ->
      expired R "fact" [x] = false ->
      transform R (Tree "function_call" [Token "fact"; c])
      = Raise (TypeError Impl.float_is_no_integer)
      /\ evaluate R (Tree "function_call" [Token "fact"; c])
         = Sent (Text Impl.float_is_no_integer)).
Proof.
  intros Hc Ha Hx. split.
  - intros Hv.
    assert (Hcs : transform_children R [c] = Ok [a]).
    { rewrite transform_children_cons, Hc. reflexivity. }
    assert (Ht : exists m,
               transform R (Tree "function_call" [Token "fact"; c])
               = Raise (ValueError m)).
    { assert (Hxs : map_float [a] = Ok [x]).
      { unfold map_float. rewrite Ha. reflexivity. }
      rewrite (transform_call R "fact" [c] [a] Hcs).
      change (Interpreter.function_call R [VStr "fact"; a])
        with (Interpreter.nargs R 1 [a] "fact" (Impl.factorial R)).
      destruct (expired R "fact" [x]) eqn:Hexp.
      - eexists. apply nargs_expired with (xs := [x]); auto.
      - destruct (factorial_domain R x Hv Hx) as [m Hm]. exists m.
        rewrite (nargs_in_time R 1 [a] "fact" (Impl.factorial R) [x]); auto.
        rewrite Hm. reflexivity. }
    destruct Ht as [m Hm]. exists m.
    split; [exact Hm | apply evaluate_ValueError, Hm].
  - intros Hv Hexp. exact (fact_refuses_every_float R c a x Hv Hc Ha Hexp).
Qed.

Lemma fact_domain_failure_witness :
  (exists m,
     transform prompt
       (Tree "function_call" [Token "fact"; Tree "unary" [Token "-"; Token "1"]])
     = Raise (ValueError m)
     /\ evaluate prompt
          (Tree "function_call"
             [Token "fact"; Tree "unary" [Token "-"; Token "1"]])
        = Sent (Text m))
  /\ (transform recent
        (Tree "function_call" [Token "fact"; Tree "unary" [Token "-"; Token "1"]])
      = Raise (TypeError Impl.float_is_no_integer)
      /\ evaluate recent
           (Tree "function_call"
              [Token "fact"; Tree "unary" [Token "-"; Token "1"]])
         = Sent (Text Impl.float_is_no_integer)).
Proof.
  split.
  - refine (proj1 (fact_domain_failure prompt
                     (Tree "unary" [Token "-"; Token "1"])
                     (VDecimal (Dec.Finite true 1 0))
                     (S754_finite true 4503599627370496 (-52)) _ _ _) _).
    + vm_compute. reflexivity.
    + vm_compute. reflexivity.
    + left. reflexivity.
    + reflexivity.
  - refine (proj2 (fact_domain_failure recent
                     (Tree "unary" [Token "-"; Token "1"])
                     (VDecimal (Dec.Finite true 1 0))
                     (S754_finite true 4503599627370496 (-52)) _ _ _) _ _).
    + vm_compute. reflexivity.
    + vm_compute. reflexivity.
    + left. reflexivity.
    + reflexivity.
    + reflexivity.
Defined.

(** C7, as stated, fails on either kind of interpreter.  On Python 3.8
    and 3.9, 3.0000000000000000001 is not an integer, its float is 3.0,
    and [fact] returns 6.  On Python 3.10 and later [fact(-1)] fails
    with a [TypeError], which is not a [ValueError]. *)
Lemma fact_is_not_guarded_by_ValueError :
  to_Decimal (VStr "3.0000000000000000001")
  = Ok (Dec.Finite false 30000000000000000001 (-19))
  /\ Dec.as_integer_ratio (Dec.Finite false 30000000000000000001 (-19))
     = Some (30000000000000000001, 10000000000000000000)
  /\ transform prompt
       (Tree "function_call" [Token "fact"; Token "3.0000000000000000001"])
     = Ok (VInt 6)
  /\ transform recent
       (Tree "function_call" [Token "fact"; Tree "unary" [Token "-"; Token "1"]])
     = Raise (TypeError "'float' object cannot be interpreted as an integer")
  /\ evaluate recent
       (Tree "function_call" [Token "fact"; Tree "unary" [Token "-"; Token "1"]])
     = Sent (Text "'float' object cannot be interpreted as an integer").
Proof.
  repeat split; vm_compute; reflexivity.
Qed.

(** ** Division and modulo by zero *)

(** C2, as amended: in a [product] node with operator [/] or [%] whose
    right operand reduces to a zero and whose left operand reduces to a
    finite number, the reduction raises an exception of the [decimal]
    module and returns no number: [DivisionByZero] for a non-zero
    dividend under [/], [InvalidOperation] for a zero dividend and for
    every modulo by zero.  [do_calc] sends the text of the exception
    through its last branch. *)
Theorem zero_divisor_raises_DecimalException (R : Runtime)
    (l r : ParseTree) (op : string) (a b : Value)
    (sa sb : bool) (ca : N) (ea eb : Z) :
  transform R l = Ok a ->
  transform R r = Ok b ->
  to_Decimal a = Ok (Dec.Finite sa ca ea) ->
  to_Decimal b = Ok (Dec.Finite sb 0 eb) ->
  op = "/" \/ op = "%" ->
  let c := if N.eqb ca 0 then Dec.DivisionUndefined
           else if String.eqb op "/" then Dec.DivisionByZero
           else Dec.InvalidOperation in
  transform R (Tree "product" [l; Token op; r]) = Raise (DecimalException c)
  /\ Dec.signal_of c
     = (if String.eqb op "/" && negb (N.eqb ca 0)
        then Dec.SigDivisionByZero else Dec.SigInvalidOperation)
  /\ evaluate R (Tree "product" [l; Token op; r])
     = Sent (Text ("[<class 'decimal." ++ condition_name c ++ "'>]")).
Proof.
  intros Hl Hr Ha Hb Hop c.
  assert (Hcs : transform_children R [l; Token op; r] = Ok [a; VStr op; b]).
  { rewrite !transform_children_cons, Hl. simpl. rewrite Hr. reflexivity. }
  assert (Ht : transform R (Tree "product" [l; Token op; r])
               = Raise (DecimalException c)).
  { rewrite (transform_node R "product" _ _ Hcs).
    unfold c. destruct Hop as [-> | ->];
      unfold call_userfunc, Interpreter.product; simpl;
      rewrite Ha, Hb; simpl; destruct (N.eqb ca 0); reflexivity. }
  split; [exact Ht|]. split.
  - unfold c. destruct Hop as [-> | ->]; destruct (N.eqb ca 0); reflexivity.
  - unfold evaluate. rewrite Ht. destruct c; reflexivity.
Qed.

Lemma zero_divisor_raises_DecimalException_witness :
  transform prompt (Tree "product" [Token "1"; Token "/"; Token "0"])
  = Raise (DecimalException Dec.DivisionByZero)
  /\ Dec.signal_of Dec.DivisionByZero = Dec.SigDivisionByZero
  /\ evaluate prompt (Tree "product" [Token "1"; Token "/"; Token "0"])
     = Sent (Text "[<class 'decimal.DivisionByZero'>]").
Proof.
  apply (zero_divisor_raises_DecimalException prompt
           (Token "1") (Token "0") "/" (VStr "1") (VStr "0")
           false false 1 0 0).
  - reflexivity.
  - reflexivity.
  - reflexivity.
  - reflexivity.
  - left. reflexivity.
Defined.

(** C2, as stated, fails: [1 / 0] raises [decimal.DivisionByZero], which
    is not a [ValueError]. *)
Lemma division_by_zero_is_not_ValueError :
  transform prompt (Tree "product" [Token "1"; Token "/"; Token "0"])
  = Raise (DecimalException Dec.DivisionByZero)
  /\ forall m : string,
       transform prompt (Tree "product" [Token "1"; Token "/"; Token "0"])
       <> Raise (ValueError m).
Proof.
  split; [reflexivity|]. intros m. vm_compute. discriminate.
Qed.

(** ** The formatter *)

(** The rule of the last statement of [do_calc], whenever [res % 1] and
    the two comparisons go through: fraction and float when both the
    remainder and its complement to one exceed the machine epsilon, the
    fraction alone otherwise. *)
Lemma answer_rule (R : Runtime) (res m : Value) (above below : bool)
    (r : Z * Z) (x : PyFloat.float) :
  mod_one res = Ok m ->
  gt_epsilon m = Ok above ->
  (o <- one_minus m ;; gt_epsilon o) = Ok below ->
  Fraction res = Ok r ->
  to_float res = Ok x ->
  answer R res
  = Ok (if above && below then fraction_and_float R r x
        else fraction_only r).
Proof.
  intros Hm Ha Hb Hr Hx. unfold answer. rewrite Hm. simpl. rewrite Ha.
  simpl. destruct above; simpl.
  - rewrite Hb. simpl. rewrite Hr. simpl. rewrite Hx.
    destruct below; reflexivity.
  - rewrite Hr. reflexivity.
Qed.

(** C5 fails on the code at the first number of 29 digits: [res % 1]
    needs an integer quotient of more than 28 digits, the decimal context
    signals [InvalidOperation] (division impossible), and the exception
    leaves [do_calc] with nothing sent. *)
Theorem formatter_fails_on_29_digits (R : Runtime) :
  evaluate R (Token "10000000000000000000000000000")
  = Escaped (DecimalException Dec.DivisionImpossible).
Proof. vm_compute. reflexivity. Qed.

(** ** The operator alphabet *)

Lemma clean_Ok {A : Type} (a : A) : clean (Ok a).
Proof. discriminate. Qed.

Lemma clean_bind {A B : Type} (c : Result A) (k : A -> Result B) :
  clean c -> (forall a, c = Ok a -> clean (k a)) -> clean (bind c k).
Proof.
  intros Hc Hk. destruct c as [a | e]; simpl.
  - apply Hk. reflexivity.
  - intros H. apply Hc. inversion H. reflexivity.
Qed.

Lemma clean_lift {A : Type} (o : Dec.outcome A) : clean (lift o).
Proof. destruct o; discriminate. Qed.

Lemma clean_index (args : list Value) (i : nat) : clean (index args i).
Proof. unfold index. destruct (nth_error args i); discriminate. Qed.

Lemma clean_to_Decimal (v : Value) : clean (to_Decimal v).
Proof.
  destruct v; simpl; try discriminate.
  destruct (Literal.parse s) as [[[sg c] e]|]; discriminate.
Qed.

Lemma clean_to_float (v : Value) : clean (to_float v).
Proof.
  destruct v; simpl; try discriminate.
  - destruct (Literal.parse s) as [[[sg c] e]|]; discriminate.
  - destruct (PyFloat.is_inf (PyFloat.of_Z z)); discriminate.
Qed.

Lemma clean_map_float (args : list Value) : clean (map_float args).
Proof.
  induction args as [|a args IH]; simpl; [discriminate|].
  apply clean_bind; [apply clean_to_float|]. intros x _.
  apply clean_bind; [exact IH|]. intros xs _. discriminate.
Qed.

Create HintDb clean.

#[local] Hint Resolve clean_Ok clean_lift clean_index clean_to_Decimal
  clean_to_float clean_map_float : clean.

(** Unfold the binds of a rule one at a time. *)
Ltac clean_steps :=
  repeat (first
    [ apply clean_Ok
    | apply clean_bind; [auto with clean | intros ? _]
    | discriminate ]).

Lemma clean_math_1 (f : PyFloat.float -> PyFloat.float) (x : PyFloat.float) :
  clean (Impl.math_1 f x).
Proof.
  unfold Impl.math_1.
  destruct (PyFloat.is_nan (f x) && negb (PyFloat.is_nan x)); [discriminate|].
  destruct (PyFloat.is_inf (f x) && PyFloat.is_finite x); discriminate.
Qed.

#[local] Hint Resolve clean_math_1 : clean.

Lemma clean_unary_fn (f : PyFloat.float -> Result Value)
    (xs : list PyFloat.float) :
  (forall x, clean (f x)) -> clean (Impl.unary_fn f xs).
Proof.
  intros H. unfold Impl.unary_fn, Impl.bad_call.
  destruct xs as [|x [|y xs]]; try discriminate. apply H.
Qed.

Lemma clean_factorial (R : Runtime) (xs : list PyFloat.float) :
  clean (Impl.factorial R xs).
Proof.
  apply clean_unary_fn. intros x.
  destruct (negb (factorial_takes_float R)); [discriminate|].
  destruct (negb (PyFloat.is_finite x && PyFloat.is_integral x));
    [discriminate|]. cbv zeta.
  destruct (Impl.LONG_MAX <? PyFloat.to_Z x); [discriminate|].
  destruct (PyFloat.to_Z x <? 0); discriminate.
Qed.

Lemma clean_log (R : Runtime) (xs : list PyFloat.float) :
  clean (Impl.log R xs).
Proof.
  unfold Impl.log, Impl.bad_call.
  destruct xs as [|x [|base [|z xs]]]; try discriminate.
  clean_steps. destruct (PyFloat.is_zero _); discriminate.
Qed.

Lemma clean_nargs (R : Runtime) (n : nat) (args : list Value) (fn : string)
    (f : Impl.t) :
  (forall xs, clean (f xs)) -> clean (Interpreter.nargs R n args fn f).
Proof.
  intros Hf. unfold Interpreter.nargs, Interpreter.caller.
  destruct (negb (Nat.eqb (List.length args) n)); [discriminate|].
  apply clean_bind; [auto with clean|]. intros xs _.
  destruct (expired R fn xs); [discriminate|].
  specialize (Hf xs). destruct (f xs) as [v | e]; [discriminate|].
  destruct e; try discriminate. exact Hf.
Qed.

(** [function_call] never raises [InvalidStateError], whatever its
    children. *)
Lemma clean_function_call (R : Runtime) (args : list Value) :
  clean (Interpreter.function_call R args).
Proof.
  unfold Interpreter.function_call.
  apply clean_bind; [auto with clean|]. intros name _.
  repeat match goal with
         | |- clean (if ?c then _ else _) => destruct c
         end;
    try (apply clean_nargs; intros xs;
         first [ apply clean_factorial
               | apply clean_log
               | apply clean_unary_fn; intros x;
                 unfold Impl.float_result; clean_steps ]);
    clean_steps.
Qed.

Lemma clean_power (R : Runtime) (args : list Value) :
  clean (Interpreter.power R args).
Proof. unfold Interpreter.power. clean_steps. Qed.

Lemma clean_unary (args : list Value) : clean (Interpreter.unary args).
Proof.
  unfold Interpreter.unary.
  apply clean_bind; [auto with clean|]. intros sign _.
  destruct (eq_str sign "+"); clean_steps.
Qed.

(** With an operator of its alphabet, [sum] does not reach its last
    line. *)
Lemma clean_sum (a b : Value) (op : string) :
  Grammar.one_of Grammar.sum_ops op = true ->
  clean (Interpreter.sum [a; VStr op; b]).
Proof.
  unfold Grammar.one_of, Grammar.sum_ops. simpl. intros H.
  unfold Interpreter.sum. simpl.
  destruct (String.eqb op "+"); [clean_steps|].
  destruct (String.eqb op "-"); [clean_steps | discriminate].
Qed.

(** Nor does [product]. *)
Lemma clean_product (a b : Value) (op : string) :
  Grammar.one_of Grammar.product_ops op = true ->
  clean (Interpreter.product [a; VStr op; b]).
Proof.
  unfold Grammar.one_of, Grammar.product_ops. simpl. intros H.
  unfold Interpreter.product. simpl.
  destruct (String.eqb op "*"); [clean_steps|].
  destruct (String.eqb op "/"); [clean_steps|].
  destruct (String.eqb op "%"); [clean_steps | discriminate].
Qed.

Lemma clean_transform_children (R : Runtime) (cs : list ParseTree) :
  Forall (fun c => clean (transform R c)) cs ->
  clean (transform_children R cs).
Proof.
  induction 1 as [|c cs Hc _ IH]; [discriminate|].
  rewrite transform_children_cons.
  apply clean_bind; [exact Hc|]. intros v _.
  apply clean_bind; [exact IH|]. intros vs _. discriminate.
Qed.

(** A node is clean when its children are and its rule is on what they
    reduce to. *)
Lemma clean_node (R : Runtime) (data : string) (cs : list ParseTree) :
  Forall (fun c => clean (transform R c)) cs ->
  (forall args, transform_children R cs = Ok args ->
                clean (call_userfunc R data args)) ->
  clean (transform R (Tree data cs)).
Proof.
  intros Hcs Hrule. rewrite transform_Tree.
  apply clean_bind; [apply clean_transform_children, Hcs | exact Hrule].
Qed.

(** The children of a binary node reduce to operand, operator, operand. *)
Lemma transform_children_binary (R : Runtime) (l r : ParseTree)
    (op : string) (args : list Value) :
  transform_children R [l; Token op; r] = Ok args ->
  exists a b, args = [a; VStr op; b].
Proof.
  rewrite !transform_children_cons. simpl.
  destruct (transform R l) as [a|]; [simpl | discriminate].
  destruct (transform R r) as [b|]; [simpl | discriminate].
  intros H. inversion H. eauto.
Qed.

Lemma generated_Tree (data : string) (cs : list ParseTree) :
  Grammar.generated (Tree data cs)
  = if String.eqb data "sum" then
      match cs with
      | [l; Token op; r] =>
          Grammar.generated l && Grammar.one_of Grammar.sum_ops op
          && Grammar.generated r
      | _ => false
      end
    else if String.eqb data "product" then
      match cs with
      | [l; Token op; r] =>
          Grammar.generated l && Grammar.one_of Grammar.product_ops op
          && Grammar.generated r
      | _ => false
      end
    else if String.eqb data "power" then
      match cs with
      | [b; e] => Grammar.generated b && Grammar.generated e
      | _ => false
      end
    else if String.eqb data "unary" then
      match cs with
      | [Token sign; x] =>
          Grammar.one_of Grammar.signs sign && Grammar.generated x
      | _ => false
      end
    else if String.eqb data "function_call" then
      match cs with
      | Token _ :: args => forallb Grammar.generated args
      | _ => false
      end
    else false.
Proof. reflexivity. Qed.

Lemma clean_Token (R : Runtime) (s : string) : clean (transform R (Token s)).
Proof. discriminate. Qed.

(** C8: on a parse tree of the grammar, every [sum] node has operator
    [+] or [-] and every [product] node [*], [/] or [%], and the
    reduction never raises the [InvalidStateError] that ends the two
    rules. *)
Theorem grammar_never_raises_InvalidStateError (R : Runtime)
    (t : ParseTree) :
  Grammar.generated t = true -> transform R t <> Raise InvalidStateError.
Proof.
  change (Grammar.generated t = true -> clean (transform R t)).
  induction t as [s | data cs IH] using ParseTree_induction; intros H.
  - apply clean_Token.
  - rewrite generated_Tree in H.
    destruct (String.eqb data "sum") eqn:Esum.
    { apply String.eqb_eq in Esum. subst data.
      destruct cs as [|l [|[op|] [|r [|]]]]; try discriminate H.
      apply andb_prop in H as [H Hr]. apply andb_prop in H as [Hl Hop].
      inversion IH as [|? ? IHl IH']. inversion IH' as [|? ? _ IH''].
      inversion IH'' as [|? ? IHr _]. subst.
      apply clean_node.
      - repeat constructor; [apply IHl, Hl | apply clean_Token | apply IHr, Hr].
      - intros args Hargs.
        destruct (transform_children_binary R l r op args Hargs)
          as (a & b & ->).
        apply clean_sum, Hop. }
    destruct (String.eqb data "product") eqn:Eprod.
    { apply String.eqb_eq in Eprod. subst data.
      destruct cs as [|l [|[op|] [|r [|]]]]; try discriminate H.
      apply andb_prop in H as [H Hr]. apply andb_prop in H as [Hl Hop].
      inversion IH as [|? ? IHl IH']. inversion IH' as [|? ? _ IH''].
      inversion IH'' as [|? ? IHr _]. subst.
      apply clean_node.
      - repeat constructor; [apply IHl, Hl | apply clean_Token | apply IHr, Hr].
      - intros args Hargs.
        destruct (transform_children_binary R l r op args Hargs)
          as (a & b & ->).
        apply clean_product, Hop. }
    destruct (String.eqb data "power") eqn:Epow.
    { apply String.eqb_eq in Epow. subst data.
      destruct cs as [|b [|e [|]]]; try discriminate H.
      apply andb_prop in H as [Hb He].
      inversion IH as [|? ? IHb IH']. inversion IH' as [|? ? IHe _]. subst.
      apply clean_node.
      - repeat constructor; [apply IHb, Hb | apply IHe, He].
      - intros args _. apply clean_power. }
    destruct (String.eqb data "unary") eqn:Eun.
    { apply String.eqb_eq in Eun. subst data.
      destruct cs as [|[sign|] [|x [|]]]; try discriminate H.
      apply andb_prop in H as [_ Hx].
      inversion IH as [|? ? _ IH']. inversion IH' as [|? ? IHx _]. subst.
      apply clean_node.
      - repeat constructor; [apply clean_Token | apply IHx, Hx].
      - intros args _. apply clean_unary. }
    destruct (String.eqb data "function_call") eqn:Ecall; [|discriminate H].
    apply String.eqb_eq in Ecall. subst data.
    destruct cs as [|[name|] args]; try discriminate H.
    inversion IH as [|? ? _ IHargs]. subst.
    apply clean_node.
    + constructor; [apply clean_Token|].
      rewrite forallb_forall in H. rewrite Forall_forall in IHargs.
      apply Forall_forall. intros c Hc. apply IHargs; [exact Hc|].
      apply H, Hc.
    + intros args' _. apply clean_function_call.
Qed.

Lemma grammar_never_raises_InvalidStateError_witness :
  transform prompt
    (Tree "sum"
       [Token "2"; Token "+"; Tree "product" [Token "3"; Token "*"; Token "4"]])
  <> Raise InvalidStateError.
Proof.
  apply (grammar_never_raises_InvalidStateError prompt
    (Tree "sum"
       [Token "2"; Token "+";
        Tree "product" [Token "3"; Token "*"; Token "4"]])).
  reflexivity.
Defined.

(** * Further properties *)

(** ** Digits and literals *)



Lemma uval_acc (d : Decimal.uint) (p : positive) :
  uval d (Npos p) = Npos (Pos.of_uint_acc d p).
Proof.
  revert p. induction d; intros p; cbn [uval Pos.of_uint_acc];
    try reflexivity;
    match goal with
    | |- uval _ ?a = Npos (Pos.of_uint_acc _ ?q) =>
        replace a with (Npos q) by lia
    end; apply IHd.
Qed.

Lemma uval_of_uint (d : Decimal.uint) : uval d 0 = Pos.of_uint d.
Proof.
  induction d; cbn [uval Pos.of_uint]; try reflexivity; try exact IHd;
    match goal with
    | |- uval _ ?a = Npos (Pos.of_uint_acc _ ?q) =>
        change a with (Npos q)
    end; apply uval_acc.
Qed.

Lemma uval_split (d : Decimal.uint) (acc : N) :
  (uval d acc = acc * 10 ^ N.of_nat (Decimal.nb_digits d) + uval d 0
   /\ uval d 0 < 10 ^ N.of_nat (Decimal.nb_digits d))%N.
Proof.
  revert acc. induction d; intros acc;
    [ simpl; split; lia | .. ];
    cbn [uval Decimal.nb_digits];
    rewrite Nat2N.inj_succ, N.pow_succ_r';
    match goal with
    | |- (uval _ ?a = _ /\ uval _ ?b < _)%N =>
        destruct (IHd a) as [Ea B]; destruct (IHd b) as [Eb _];
        rewrite Ea, Eb
    end;
    set (P := (10 ^ N.of_nat (Decimal.nb_digits d))%N) in *;
    set (u := uval d 0) in *; split; nia.
Qed.

Lemma uval_to_uint (c : N) : uval (N.to_uint c) 0 = c.
Proof. rewrite uval_of_uint. apply DecimalN.Unsigned.of_to. Qed.

Lemma nd_upper (c : N) : (c < 10 ^ N.of_nat (nd c))%N.
Proof.
  unfold nd. rewrite <- (uval_to_uint c) at 1.
  apply (uval_split (N.to_uint c) 0).
Qed.

Lemma nd_pos (c : N) : (1 <= nd c)%nat.
Proof.
  unfold nd. destruct c as [|p]; [simpl; lia|].
  simpl. pose proof (DecimalPos.Unsigned.to_uint_nonnil p) as H.
  destruct (Pos.to_uint p); [congruence | simpl; lia ..].
Qed.

Lemma to_uint_unorm (p : positive) :
  Decimal.unorm (Pos.to_uint p) = Pos.to_uint p.
Proof.
  rewrite <- DecimalPos.Unsigned.to_of, DecimalPos.Unsigned.of_to.
  reflexivity.
Qed.

Lemma nd_lower (c : N) : c <> 0%N -> (10 ^ N.of_nat (nd c - 1) <= c)%N.
Proof.
  intros Hc. destruct c as [|p]; [congruence|].
  unfold nd. rewrite <- (uval_to_uint (Npos p)) at 2. simpl N.to_uint.
  pose proof (to_uint_unorm p) as Hu.
  pose proof (DecimalPos.Unsigned.to_uint_nonzero p) as Hz.
  pose proof (DecimalPos.Unsigned.to_uint_nonnil p) as Hn.
  unfold Decimal.unorm in Hu.
  destruct (Pos.to_uint p) as [|d|d|d|d|d|d|d|d|d|d] eqn:E; [congruence | ..].
  { (* a leading zero is impossible *)
    exfalso. simpl in Hu.
    pose proof (DecimalFacts.nb_digits_nzhead d) as Hle.
    destruct (Decimal.nzhead d) eqn:En;
      [ apply Hz; inversion Hu; reflexivity
      | rewrite Hu in Hle; simpl in Hle; lia .. ]. }
  all: cbn [uval Decimal.nb_digits];
    rewrite Nat.sub_succ, Nat.sub_0_r;
    match goal with
    | |- (_ <= uval ?u ?a)%N => destruct (uval_split u a) as [Ea _]; rewrite Ea
    end; nia.
Qed.

Lemma digits_run_uint (d : Decimal.uint) (acc : N) (cnt : Z) :
  Literal.digits_run (NilEmpty.string_of_uint d) acc cnt
  = (uval d acc, cnt + Z.of_nat (Decimal.nb_digits d), EmptyString).
Proof.
  revert acc cnt. induction d; intros acc cnt;
    cbn [NilEmpty.string_of_uint Literal.digits_run uval Decimal.nb_digits];
    [ rewrite Z.add_0_r; reflexivity | .. ];
    (change (Literal.digit_of _) with (Some 0%N)
     || change (Literal.digit_of _) with (Some 1%N)
     || change (Literal.digit_of _) with (Some 2%N)
     || change (Literal.digit_of _) with (Some 3%N)
     || change (Literal.digit_of _) with (Some 4%N)
     || change (Literal.digit_of _) with (Some 5%N)
     || change (Literal.digit_of _) with (Some 6%N)
     || change (Literal.digit_of _) with (Some 7%N)
     || change (Literal.digit_of _) with (Some 8%N)
     || change (Literal.digit_of _) with (Some 9%N));
    cbv iota; rewrite IHd, Nat2Z.inj_succ, ?N.add_0_r;
    replace (cnt + 1 + Z.of_nat (Decimal.nb_digits d))
      with (cnt + Z.succ (Z.of_nat (Decimal.nb_digits d))) by lia;
    reflexivity.
Qed.

Lemma string_of_uint_nonnil (d : Decimal.uint) :
  d <> Decimal.Nil ->
  NilZero.string_of_uint d = NilEmpty.string_of_uint d.
Proof. destruct d; [congruence | reflexivity ..]. Qed.

Lemma read_sign_digits (d : Decimal.uint) :
  d <> Decimal.Nil ->
  Literal.read_sign (NilEmpty.string_of_uint d)
  = (false, NilEmpty.string_of_uint d).
Proof. destruct d; [congruence | reflexivity ..]. Qed.

Lemma parse_digits (sg : bool) (p : positive) :
  (let '(ci, ni, s2) :=
     Literal.digits_run (NilEmpty.string_of_uint (Pos.to_uint p)) 0 0 in
   let '(c, nf, s3) :=
     match s2 with
     | String "."%char s2' => Literal.digits_run s2' ci 0
     | _ => (ci, 0, s2)
     end in
   if ni + nf =? 0 then None
   else
     match s3 with
     | EmptyString => Some (sg, c, - nf)
     | String a s4 =>
         if Literal.is_e a then
           let '(se, s5) := Literal.read_sign s4 in
           let '(x, nx, s6) := Literal.digits_run s5 0 0 in
           match s6 with
           | EmptyString =>
               if nx =? 0 then None
               else Some (sg, c, (if se then - Z.of_N x else Z.of_N x) - nf)
           | _ => None
           end
         else None
     end) = Some (sg, Npos p, 0).
Proof.
  rewrite digits_run_uint.
  pose proof (uval_to_uint (Npos p)) as Hv. simpl N.to_uint in Hv.
  pose proof (nd_pos (Npos p)) as Hpos. unfold nd in Hpos.
  simpl N.to_uint in Hpos. rewrite Hv.
  assert (E0 : (0 + Z.of_nat (Decimal.nb_digits (Pos.to_uint p)) + 0 =? 0)
               = false) by (apply Z.eqb_neq; lia).
  rewrite E0. reflexivity.
Qed.

(** Reading the decimal text of an integer gives the integer back, with
    exponent 0. *)
Lemma parse_str_of_Z (z : Z) :
  Literal.parse (str_of_Z z) = Some (z <? 0, Z.abs_N z, 0).
Proof.
  destruct z as [|p|p]; [reflexivity | ..];
    unfold str_of_Z, Z.to_int, NilZero.string_of_int;
    rewrite (string_of_uint_nonnil _ (DecimalPos.Unsigned.to_uint_nonnil p));
    unfold Literal.parse.
  - rewrite (read_sign_digits _ (DecimalPos.Unsigned.to_uint_nonnil p)).
    apply parse_digits.
  - cbn [Literal.read_sign]. apply parse_digits.
Qed.

Lemma ndigits_pos (c : N) : 1 <= ndigits c.
Proof. unfold ndigits. pose proof (nd_pos c). unfold nd in *. lia. Qed.

Lemma ndigits_small (c : N) (k : Z) :
  1 <= k -> (c < Dec.pow10 k)%N -> ndigits c <= k.
Proof.
  intros Hk Hc. unfold ndigits. fold (nd c).
  destruct (N.eq_dec c 0) as [-> | Hnz]; [simpl; lia|].
  pose proof (nd_lower c Hnz) as Hl. unfold Dec.pow10 in Hc.
  assert (Hlt : (10 ^ N.of_nat (nd c - 1) < 10 ^ Z.to_N k)%N) by lia.
  apply N.pow_lt_mono_r_iff in Hlt; lia.
Qed.

Lemma ndigits_large (c : N) (k : Z) :
  0 <= k -> (Dec.pow10 k <= c)%N -> k < ndigits c.
Proof.
  intros Hk Hc. unfold ndigits. fold (nd c).
  pose proof (nd_upper c) as Hu. unfold Dec.pow10 in Hc.
  assert (Hlt : (10 ^ Z.to_N k < 10 ^ N.of_nat (nd c))%N) by lia.
  apply N.pow_lt_mono_r_iff in Hlt; lia.
Qed.

(** A coefficient of at most 28 digits with its exponent in range is not
    rounded. *)
Lemma fix_unchanged (s : bool) (c : N) (e : Z) :
  ndigits c <= Dec.prec -> Dec.Etiny <= e -> e <= Dec.Etop ->
  Dec.fix_ (Dec.Finite s c e) = Dec.Done (Dec.Finite s c e).
Proof.
  intros Hn He1 He2. unfold Dec.fix_.
  destruct (N.eqb c 0) eqn:E0.
  - apply N.eqb_eq in E0. subst.
    unfold Dec.Etiny, Dec.Etop, Dec.Emax, Dec.Emin, Dec.prec in *.
    do 3 f_equal. lia.
  - cbv zeta.
    destruct (Z.ltb_spec Dec.Etop (ndigits c + e - Dec.prec)) as [H1 | H1];
      [lia|].
    destruct (Z.ltb_spec e (Z.max (ndigits c + e - Dec.prec) Dec.Etiny))
      as [H2 | H2]; [lia | reflexivity].
Qed.

Lemma fix_small (s : bool) (c : N) :
  (c < Dec.pow10 28)%N ->
  Dec.fix_ (Dec.Finite s c 0) = Dec.Done (Dec.Finite s c 0).
Proof.
  intros Hc. apply fix_unchanged.
  - apply ndigits_small; [unfold Dec.prec; lia | exact Hc].
  - unfold Dec.Etiny, Dec.Emin, Dec.prec. lia.
  - unfold Dec.Etop, Dec.Emax, Dec.prec. lia.
Qed.

Lemma of_float_epsilon :
  Dec.of_float PyFloat.epsilon
  = Dec.Finite false 2220446049250313080847263336181640625 (-52).
Proof. vm_compute. reflexivity. Qed.

Lemma rem_one_small (s : bool) (c : N) :
  (c < Dec.pow10 28)%N ->
  Dec.rem (Dec.Finite s c 0) Dec.one = Dec.Done (Dec.Finite s 0 0).
Proof.
  intros Hc. unfold Dec.rem, Dec.one. cbn [N.eqb].
  destruct (N.eqb c 0) eqn:E0.
  - reflexivity.
  - pose proof (ndigits_small c 28 ltac:(lia) Hc) as Hn.
    pose proof (ndigits_pos c) as Hp.
    unfold Dec.adjusted. change (ndigits 1) with 1.
    change (Z.min 0 0) with 0. change (Dec.pow10 (0 - 0)) with 1%N.
    rewrite !N.mul_1_r, N.div_1_r, N.mod_1_r.
    destruct (Z.leb_spec (0 + ndigits c - 1 - (0 + 1 - 1)) (-2)); [lia|].
    destruct (Z.leb_spec (0 + ndigits c - 1 - (0 + 1 - 1)) Dec.prec);
      [| unfold Dec.prec in *; lia].
    change Dec.prec with 28. apply N.ltb_lt in Hc. rewrite Hc. reflexivity.
Qed.

Lemma rem_one_large (s : bool) (c : N) :
  (Dec.pow10 28 <= c)%N ->
  Dec.rem (Dec.Finite s c 0) Dec.one = Dec.Trap Dec.DivisionImpossible.
Proof.
  intros Hc. unfold Dec.rem, Dec.one. cbn [N.eqb].
  assert (E0 : N.eqb c 0 = false).
  { apply N.eqb_neq. intros ->. vm_compute in Hc. apply Hc. reflexivity. }
  rewrite E0.
  pose proof (ndigits_pos c) as Hp.
  unfold Dec.adjusted. change (ndigits 1) with 1.
  change (Z.min 0 0) with 0. change (Dec.pow10 (0 - 0)) with 1%N.
  rewrite !N.mul_1_r, N.div_1_r.
  destruct (Z.leb_spec (0 + ndigits c - 1 - (0 + 1 - 1)) (-2)); [lia|].
  change (Dec.pow10 Dec.prec) with (Dec.pow10 28).
  apply N.ltb_ge in Hc. rewrite Hc.
  destruct (0 + ndigits c - 1 - (0 + 1 - 1) <=? Dec.prec); reflexivity.
Qed.

Lemma signed_abs (s : bool) (c : N) : Z.abs (signed s c) = Z.of_N c.
Proof. unfold signed. destruct s; lia. Qed.

Lemma signed_of_Z (z : Z) : signed (z <? 0) (Z.abs_N z) = z.
Proof. unfold signed. destruct (Z.ltb_spec z 0); lia. Qed.

Lemma pow10_28 : Z.of_N (Dec.pow10 28) = 10 ^ 28.
Proof. reflexivity. Qed.

Lemma pow10_Z (k : Z) : 0 <= k -> Z.of_N (Dec.pow10 k) = 10 ^ k.
Proof.
  intros Hk. unfold Dec.pow10. rewrite N2Z.inj_pow, Z2N.id by exact Hk.
  reflexivity.
Qed.

Lemma integer_answer (R : Runtime) (s : bool) (c : N) :
  (c < Dec.pow10 28)%N ->
  send_answer R (VDecimal (Dec.Finite s c 0))
  = Sent (Text ("The answer is `" ++ str_of_Z (signed s c) ++ "`")).
Proof.
  intros Hc. unfold send_answer, answer, mod_one.
  rewrite (rem_one_small s c Hc). cbn [lift bind gt_epsilon].
  rewrite of_float_epsilon.
  assert (Hgt : Dec.gt (Dec.Finite s 0 0)
                  (Dec.Finite false 2220446049250313080847263336181640625 (-52))
                = Dec.Done false).
  { destruct s; vm_compute; reflexivity. }
  rewrite Hgt. cbn [lift bind Fraction Dec.as_integer_ratio].
  change (0 <=? 0) with true. cbv iota.
  change (Dec.pow10 0) with 1%N. rewrite N.mul_1_r.
  unfold fraction_only, fraction_str, signed. cbn [bind]. reflexivity.
Qed.

Lemma small_coeff (s : bool) (c : N) :
  Z.abs (signed s c) < 10 ^ 28 -> (c < Dec.pow10 28)%N.
Proof. rewrite signed_abs, <- pow10_28. lia. Qed.

(** Addition of two integers: the exact sum, then the context. *)
Lemma add_integers (sa sb : bool) (ca cb : N) :
  exists s,
    Dec.add (Dec.Finite sa ca 0) (Dec.Finite sb cb 0)
    = Dec.fix_ (Dec.Finite s (Z.abs_N (signed sa ca + signed sb cb)) 0)
    /\ signed s (Z.abs_N (signed sa ca + signed sb cb))
       = signed sa ca + signed sb cb.
Proof.
  unfold Dec.add. change (Z.min 0 0) with 0.
  change (Dec.pow10 (0 - 0)) with 1%N. rewrite !N.mul_1_r. cbv zeta.
  fold (signed sa ca). fold (signed sb cb).
  eexists. split; [reflexivity|].
  destruct (Z.eqb_spec (signed sa ca + signed sb cb) 0) as [E | E].
  - rewrite E. unfold signed. simpl.
    destruct (_ && _)%bool; reflexivity.
  - apply signed_of_Z.
Qed.

Lemma mul_integers (sa sb : bool) (ca cb : N) :
  Dec.mul (Dec.Finite sa ca 0) (Dec.Finite sb cb 0)
  = Dec.fix_ (Dec.Finite (xorb sa sb) (ca * cb) 0)
  /\ signed (xorb sa sb) (ca * cb) = signed sa ca * signed sb cb.
Proof.
  split; [reflexivity|]. unfold signed. destruct sa, sb; simpl; lia.
Qed.

Lemma neg_integer (s : bool) (c : N) :
  exists s',
    Dec.neg (Dec.Finite s c 0) = Dec.fix_ (Dec.Finite s' c 0)
    /\ signed s' c = - signed s c.
Proof.
  unfold Dec.neg. destruct (N.eqb_spec c 0) as [-> | E].
  - exists false. split; [reflexivity|]. unfold signed. destruct s; reflexivity.
  - exists (negb s). split; [reflexivity|]. unfold signed. destruct s; simpl; lia.
Qed.

(** The remainder of two integers of at most 28 digits: [Z.rem], with the
    sign of the dividend. *)
Lemma rem_integers (sa sb : bool) (ca cb : N) :
  (ca < Dec.pow10 28)%N -> (cb < Dec.pow10 28)%N -> cb <> 0%N ->
  exists c,
    Dec.rem (Dec.Finite sa ca 0) (Dec.Finite sb cb 0)
    = Dec.Done (Dec.Finite sa c 0)
    /\ signed sa c = Z.rem (signed sa ca) (signed sb cb)
    /\ (c < Dec.pow10 28)%N.
Proof.
  intros Ha Hb Hnz. unfold Dec.rem.
  apply N.eqb_neq in Hnz. rewrite Hnz. apply N.eqb_neq in Hnz.
  change (Z.min 0 0) with 0. change (Dec.pow10 (0 - 0)) with 1%N.
  rewrite !N.mul_1_r. cbv zeta. unfold Dec.adjusted.
  assert (Hrem : forall c, c = (ca mod cb)%N ->
            signed sa c = Z.rem (signed sa ca) (signed sb cb)).
  { intros c ->. unfold signed.
    assert (Hm : Z.of_N (ca mod cb) = Z.rem (Z.of_N ca) (Z.of_N cb)).
    { rewrite N2Z.inj_mod. rewrite Z.rem_mod_nonneg; lia. }
    destruct sa, sb; rewrite ?Z.rem_opp_l', ?Z.rem_opp_r'; lia. }
  destruct (N.eqb_spec ca 0) as [-> | Ea].
  - exists 0%N. split; [apply fix_small; reflexivity|].
    split; [apply Hrem; rewrite N.Div0.mod_0_l; reflexivity | reflexivity].
  - pose proof (ndigits_small ca 28 ltac:(lia) Ha) as Hna.
    pose proof (ndigits_pos cb) as Hpb.
    destruct (Z.leb_spec (0 + ndigits ca - 1 - (0 + ndigits cb - 1)) (-2))
      as [H1 | H1].
    + (* the dividend is shorter than the divisor by two digits *)
      exists ca. split; [apply fix_small, Ha|]. split; [|exact Ha].
      apply Hrem. symmetry. apply N.mod_small.
      pose proof (nd_upper ca) as Hu. pose proof (nd_lower cb Hnz) as Hl.
      unfold ndigits in H1. fold (nd ca) in H1. fold (nd cb) in H1.
      assert (Hp : (10 ^ N.of_nat (nd ca) <= 10 ^ N.of_nat (nd cb - 1))%N)
        by (apply N.pow_le_mono_r; lia).
      lia.
    + destruct (Z.leb_spec (0 + ndigits ca - 1 - (0 + ndigits cb - 1)) Dec.prec)
        as [H2 | H2]; [| unfold Dec.prec in H2; lia].
      assert (Hq : (ca / cb <? Dec.pow10 Dec.prec)%N = true).
      { apply N.ltb_lt. change Dec.prec with 28.
        pose proof (N.Div0.div_le_upper_bound ca cb ca) as Hd.
        assert (ca / cb <= ca)%N by (apply N.Div0.div_le_upper_bound; nia).
        lia. }
      rewrite Hq.
      assert (Hr : (ca mod cb < Dec.pow10 28)%N).
      { pose proof (N.mod_lt ca cb Hnz). lia. }
      exists (ca mod cb)%N. split; [apply fix_small, Hr|].
      split; [apply Hrem; reflexivity | exact Hr].
Qed.

Lemma strip_zeros (n : nat) :
  forall (fuel : nat) (q : N) (e ideal : Z),
    (n <= fuel)%nat -> e + Z.of_nat n = ideal ->
    Dec.strip fuel (q * 10 ^ N.of_nat n) e ideal = (q, ideal).
Proof.
  induction n as [|n IH]; intros fuel q e ideal Hf He.
  - simpl N.of_nat. rewrite N.pow_0_r, N.mul_1_r.
    assert (e = ideal) by lia. subst e.
    destruct fuel; simpl; [reflexivity|].
    rewrite Z.ltb_irrefl. reflexivity.
  - destruct fuel as [|fuel]; [lia|].
    cbn [Dec.strip].
    assert (Hlt : (e <? ideal) = true) by (apply Z.ltb_lt; lia).
    rewrite Hlt, Nat2N.inj_succ, N.pow_succ_r'.
    assert (Hm : (q * (10 * 10 ^ N.of_nat n))%N
                 = (q * 10 ^ N.of_nat n * 10)%N) by lia.
    rewrite Hm, N.Div0.mod_mul, N.div_mul by lia. simpl andb. cbv iota.
    apply IH; lia.
Qed.

(** An exact quotient of two integers of at most 28 digits. *)
Lemma div_integers (sa sb : bool) (ca cb : N) :
  (ca < Dec.pow10 28)%N -> (cb < Dec.pow10 28)%N -> cb <> 0%N ->
  (ca mod cb = 0)%N ->
  Dec.div (Dec.Finite sa ca 0) (Dec.Finite sb cb 0)
  = Dec.Done (Dec.Finite (xorb sa sb) (ca / cb) 0)
  /\ signed (xorb sa sb) (ca / cb) = Z.quot (signed sa ca) (signed sb cb)
  /\ (ca / cb < Dec.pow10 28)%N.
Proof.
  intros Ha Hb Hnz Hdiv.
  assert (Hq : (ca / cb <= ca)%N) by (apply N.Div0.div_le_upper_bound; nia).
  assert (Hlt : (ca / cb < Dec.pow10 28)%N) by lia.
  split; [| split; [| exact Hlt]].
  - unfold Dec.div. apply N.eqb_neq in Hnz. rewrite Hnz.
    apply N.eqb_neq in Hnz.
    destruct (N.eqb_spec ca 0) as [-> | Ea].
    + rewrite N.Div0.div_0_l. apply fix_small. reflexivity.
    + cbv zeta.
      pose proof (ndigits_small ca 28 ltac:(lia) Ha) as Hna.
      pose proof (ndigits_pos cb) as Hpb.
      set (shift := ndigits cb - ndigits ca + Dec.prec + 1).
      assert (Hs : 2 <= shift) by (unfold shift, Dec.prec; lia).
      destruct (Z.leb_spec 0 shift) as [_ | ?]; [| lia].
      assert (Hk : (ca = cb * (ca / cb))%N).
      { pose proof (N.div_mod ca cb Hnz). lia. }
      assert (Hk0 : (ca / cb <> 0)%N) by (intros E; rewrite E in Hk; lia).
      assert (Hde : N.div_eucl (ca * Dec.pow10 shift) cb
                    = ((ca / cb) * Dec.pow10 shift, 0)%N).
      { pose proof (N.div_eucl_spec (ca * Dec.pow10 shift) cb) as Hsp.
        destruct (N.div_eucl (ca * Dec.pow10 shift) cb) as [q r] eqn:E.
        assert (Hqr : q = ((ca * Dec.pow10 shift) / cb)%N
                      /\ r = ((ca * Dec.pow10 shift) mod cb)%N).
        { unfold N.div, N.modulo. rewrite E. auto. }
        destruct Hqr as [-> ->].
        assert (Hm : (ca * Dec.pow10 shift
                      = ca / cb * Dec.pow10 shift * cb)%N) by nia.
        rewrite Hm, N.Div0.mod_mul, N.div_mul by exact Hnz. reflexivity. }
      rewrite Hde. cbn [N.eqb].
      unfold Dec.pow10.
      rewrite <- (N2Nat.id (Z.to_N shift)).
      rewrite (strip_zeros (N.to_nat (Z.to_N shift)) _ (ca / cb)
                 (0 - 0 - shift) (0 - 0)).
      * apply fix_small, Hlt.
      * (* enough fuel: the quotient has more than [shift] digits *)
        pose proof (ndigits_large
                      (ca / cb * 10 ^ N.of_nat (N.to_nat (Z.to_N shift)))
                      shift ltac:(lia)) as Hl.
        unfold ndigits in Hl. rewrite N2Nat.id in *.
        unfold Dec.pow10 in Hl.
        assert (Z.of_nat (Decimal.nb_digits
                  (N.to_uint (ca / cb * 10 ^ Z.to_N shift))) > shift)
          by (apply Z.lt_gt, Hl; nia).
        lia.
      * lia.
  - assert (Hz : Z.of_N (ca / cb) = Z.quot (Z.of_N ca) (Z.of_N cb)).
    { rewrite N2Z.inj_div, Z.quot_div_nonneg; lia. }
    unfold signed.
    destruct sa, sb; simpl xorb; cbv iota;
      rewrite ?Z.quot_opp_l, ?Z.quot_opp_r, ?Z.quot_opp_opp; lia.
Qed.

(** ** Rules on operands that convert *)

Lemma sum_plus (a b : Value) (x y : Dec.Decimal) :
  to_Decimal a = Ok x -> to_Decimal b = Ok y ->
  Interpreter.sum [a; VStr "+"; b]
  = (r <- lift (Dec.add x y) ;; Ok (VDecimal r)).
Proof.
  intros Ha Hb. unfold Interpreter.sum. simpl. rewrite Ha. simpl.
  rewrite Hb. reflexivity.
Qed.

Lemma sum_minus (a b : Value) (x y : Dec.Decimal) :
  to_Decimal a = Ok x -> to_Decimal b = Ok y ->
  Interpreter.sum [a; VStr "-"; b]
  = (r <- lift (Dec.sub x y) ;; Ok (VDecimal r)).
Proof.
  intros Ha Hb. unfold Interpreter.sum. simpl. rewrite Ha. simpl.
  rewrite Hb. reflexivity.
Qed.

Lemma product_times (a b : Value) (x y : Dec.Decimal) :
  to_Decimal a = Ok x -> to_Decimal b = Ok y ->
  Interpreter.product [a; VStr "*"; b]
  = (r <- lift (Dec.mul x y) ;; Ok (VDecimal r)).
Proof.
  intros Ha Hb. unfold Interpreter.product. simpl. rewrite Ha. simpl.
  rewrite Hb. reflexivity.
Qed.

Lemma product_over (a b : Value) (x y : Dec.Decimal) :
  to_Decimal a = Ok x -> to_Decimal b = Ok y ->
  Interpreter.product [a; VStr "/"; b]
  = (r <- lift (Dec.div x y) ;; Ok (VDecimal r)).
Proof.
  intros Ha Hb. unfold Interpreter.product. simpl. rewrite Ha. simpl.
  rewrite Hb. reflexivity.
Qed.

Lemma product_modulo (a b : Value) (x y : Dec.Decimal) :
  to_Decimal a = Ok x -> to_Decimal b = Ok y ->
  Interpreter.product [a; VStr "%"; b]
  = (r <- lift (Dec.rem x y) ;; Ok (VDecimal r)).
Proof.
  intros Ha Hb. unfold Interpreter.product. simpl. rewrite Ha. simpl.
  rewrite Hb. reflexivity.
Qed.

Lemma unary_minus (a : Value) (x : Dec.Decimal) :
  to_Decimal a = Ok x ->
  Interpreter.unary [VStr "-"; a]
  = (r <- lift (Dec.neg x) ;; Ok (VDecimal r)).
Proof. intros Ha. unfold Interpreter.unary. simpl. rewrite Ha. reflexivity. Qed.

Lemma unary_plus (a : Value) (x : Dec.Decimal) :
  to_Decimal a = Ok x ->
  Interpreter.unary [VStr "+"; a] = Ok (VDecimal x).
Proof. intros Ha. unfold Interpreter.unary. simpl. rewrite Ha. reflexivity. Qed.

Lemma transform_binary (R : Runtime) (data op : string) (l r : ParseTree)
    (a b : Value) :
  transform R l = Ok a -> transform R r = Ok b ->
  transform R (Tree data [l; Token op; r])
  = call_userfunc R data [a; VStr op; b].
Proof.
  intros Hl Hr. apply transform_node.
  rewrite !transform_children_cons, Hl. simpl. rewrite Hr. reflexivity.
Qed.

Lemma transform_prefix (R : Runtime) (data sign : string) (x : ParseTree)
    (a : Value) :
  transform R x = Ok a ->
  transform R (Tree data [Token sign; x]) = call_userfunc R data [VStr sign; a].
Proof.
  intros Hx. apply transform_node.
  rewrite !transform_children_cons. simpl. rewrite Hx. reflexivity.
Qed.

Lemma in_range_bound (e : IExpr) :
  in_range e = true -> Z.abs (denote e) < 10 ^ 28.
Proof.
  intros H. destruct e; simpl in H; apply andb_prop in H as [H _];
    apply Z.ltb_lt in H; exact H.
Qed.

Lemma coeff_of_signed (s : bool) (c : N) (z : Z) :
  signed s c = z -> Z.abs z < 10 ^ 28 -> (c < Dec.pow10 28)%N.
Proof. intros <-. apply small_coeff. Qed.

Lemma signed_zero_iff (s : bool) (c : N) : signed s c = 0 <-> c = 0%N.
Proof. unfold signed. destruct s; lia. Qed.

Lemma transform_integer (R : Runtime) (e : IExpr) :
  in_range e = true ->
  exists v s c,
    transform R (to_tree e) = Ok v
    /\ to_Decimal v = Ok (Dec.Finite s c 0)
    /\ signed s c = denote e
    /\ (is_literal e = false -> v = VDecimal (Dec.Finite s c 0)).
Proof.
  induction e as [z | a IHa b IHb | a IHa b IHb | a IHa b IHb | a IHa b IHb
                 | a IHa b IHb | a IHa | a IHa];
    intros Hr; pose proof (in_range_bound _ Hr) as Hbound;
    cbn [in_range] in Hr; apply andb_prop in Hr as [_ Hr];
    cbn [to_tree denote] in *.
  - exists (VStr (str_of_Z z)), (z <? 0), (Z.abs_N z).
    repeat split.
    + unfold to_Decimal. rewrite parse_str_of_Z. reflexivity.
    + apply signed_of_Z.
    + discriminate.
  - apply andb_prop in Hr as [Ha Hb].
    destruct (IHa Ha) as (va & sa & ca & Hta & Hda & Hsa & _).
    destruct (IHb Hb) as (vb & sb & cb & Htb & Hdb & Hsb & _).
    destruct (add_integers sa sb ca cb) as (s & Hadd & Hs).
    rewrite Hsa, Hsb in *.
    exists (VDecimal (Dec.Finite s (Z.abs_N (denote a + denote b)) 0)), s,
      (Z.abs_N (denote a + denote b)).
    assert (Hfix := fix_small s _ (coeff_of_signed _ _ _ Hs Hbound)).
    repeat split; auto.
    rewrite (transform_binary R "sum" "+" _ _ va vb Hta Htb).
    change (call_userfunc R "sum" ?x) with (Interpreter.sum x).
    rewrite (sum_plus va vb _ _ Hda Hdb), Hadd, Hfix. reflexivity.
  - apply andb_prop in Hr as [Ha Hb].
    destruct (IHa Ha) as (va & sa & ca & Hta & Hda & Hsa & _).
    destruct (IHb Hb) as (vb & sb & cb & Htb & Hdb & Hsb & _).
    destruct (add_integers sa (negb sb) ca cb) as (s & Hadd & Hs).
    assert (Hn : signed (negb sb) cb = - denote b)
      by (rewrite <- Hsb; unfold signed; destruct sb; simpl; lia).
    rewrite Hsa, Hn in *.
    replace (denote a + - denote b) with (denote a - denote b) in * by lia.
    exists (VDecimal (Dec.Finite s (Z.abs_N (denote a - denote b)) 0)), s,
      (Z.abs_N (denote a - denote b)).
    assert (Hfix := fix_small s _ (coeff_of_signed _ _ _ Hs Hbound)).
    repeat split; auto.
    rewrite (transform_binary R "sum" "-" _ _ va vb Hta Htb).
    change (call_userfunc R "sum" ?x) with (Interpreter.sum x).
    rewrite (sum_minus va vb _ _ Hda Hdb). unfold Dec.sub.
    cbn [Dec.negate]. rewrite Hadd, Hfix. reflexivity.
  - apply andb_prop in Hr as [Ha Hb].
    destruct (IHa Ha) as (va & sa & ca & Hta & Hda & Hsa & _).
    destruct (IHb Hb) as (vb & sb & cb & Htb & Hdb & Hsb & _).
    destruct (mul_integers sa sb ca cb) as (Hmul & Hs).
    rewrite Hsa, Hsb in Hs.
    exists (VDecimal (Dec.Finite (xorb sa sb) (ca * cb) 0)), (xorb sa sb),
      (ca * cb)%N.
    assert (Hfix := fix_small (xorb sa sb) _
                      (coeff_of_signed _ _ _ Hs Hbound)).
    repeat split; auto.
    rewrite (transform_binary R "product" "*" _ _ va vb Hta Htb).
    change (call_userfunc R "product" ?x) with (Interpreter.product x).
    rewrite (product_times va vb _ _ Hda Hdb), Hmul, Hfix. reflexivity.
  - apply andb_prop in Hr as [Hr Hdiv]. apply andb_prop in Hr as [Hr Hnz].
    apply andb_prop in Hr as [Ha Hb].
    destruct (IHa Ha) as (va & sa & ca & Hta & Hda & Hsa & _).
    destruct (IHb Hb) as (vb & sb & cb & Htb & Hdb & Hsb & _).
    apply negb_true_iff, Z.eqb_neq in Hnz. apply Z.eqb_eq in Hdiv.
    assert (Hca := coeff_of_signed _ _ _ Hsa (in_range_bound _ Ha)).
    assert (Hcb := coeff_of_signed _ _ _ Hsb (in_range_bound _ Hb)).
    assert (Hcnz : cb <> 0%N)
      by (intros E; apply Hnz; rewrite <- Hsb; apply signed_zero_iff, E).
    assert (Hmod : (ca mod cb = 0)%N).
    { rewrite <- Hsa, <- Hsb in Hdiv.
      assert (Hz : Z.rem (Z.of_N ca) (Z.of_N cb) = 0).
      { unfold signed in Hdiv. destruct sa, sb;
          rewrite ?Z.rem_opp_l', ?Z.rem_opp_r' in Hdiv; lia. }
      rewrite Z.rem_mod_nonneg in Hz by lia.
      rewrite <- N2Z.inj_mod in Hz. lia. }
    destruct (div_integers sa sb ca cb Hca Hcb Hcnz Hmod) as (Hd & Hs & _).
    rewrite Hsa, Hsb in Hs.
    exists (VDecimal (Dec.Finite (xorb sa sb) (ca / cb) 0)), (xorb sa sb),
      (ca / cb)%N.
    repeat split; auto.
    rewrite (transform_binary R "product" "/" _ _ va vb Hta Htb).
    change (call_userfunc R "product" ?x) with (Interpreter.product x).
    rewrite (product_over va vb _ _ Hda Hdb), Hd. reflexivity.
  - apply andb_prop in Hr as [Hr Hnz]. apply andb_prop in Hr as [Ha Hb].
    destruct (IHa Ha) as (va & sa & ca & Hta & Hda & Hsa & _).
    destruct (IHb Hb) as (vb & sb & cb & Htb & Hdb & Hsb & _).
    apply negb_true_iff, Z.eqb_neq in Hnz.
    assert (Hca := coeff_of_signed _ _ _ Hsa (in_range_bound _ Ha)).
    assert (Hcb := coeff_of_signed _ _ _ Hsb (in_range_bound _ Hb)).
    assert (Hcnz : cb <> 0%N)
      by (intros E; apply Hnz; rewrite <- Hsb; apply signed_zero_iff, E).
    destruct (rem_integers sa sb ca cb Hca Hcb Hcnz) as (c & Hd & Hs & _).
    rewrite Hsa, Hsb in Hs.
    exists (VDecimal (Dec.Finite sa c 0)), sa, c.
    repeat split; auto.
    rewrite (transform_binary R "product" "%" _ _ va vb Hta Htb).
    change (call_userfunc R "product" ?x) with (Interpreter.product x).
    rewrite (product_modulo va vb _ _ Hda Hdb), Hd. reflexivity.
  - destruct (IHa Hr) as (va & sa & ca & Hta & Hda & Hsa & _).
    destruct (neg_integer sa ca) as (s & Hneg & Hs).
    rewrite Hsa in Hs.
    exists (VDecimal (Dec.Finite s ca 0)), s, ca.
    assert (Hfix := fix_small s _ (coeff_of_signed _ _ _ Hs Hbound)).
    repeat split; auto.
    rewrite (transform_prefix R "unary" "-" _ va Hta).
    change (call_userfunc R "unary" ?x) with (Interpreter.unary x).
    rewrite (unary_minus va _ Hda), Hneg, Hfix. reflexivity.
  - destruct (IHa Hr) as (va & sa & ca & Hta & Hda & Hsa & _).
    exists (VDecimal (Dec.Finite sa ca 0)), sa, ca.
    repeat split; auto.
    rewrite (transform_prefix R "unary" "+" _ va Hta).
    change (call_userfunc R "unary" ?x) with (Interpreter.unary x).
    apply f_equal with (f := fun x => x). apply (unary_plus va _ Hda).
Qed.

(** X1: an expression built from integer literals with [+], [-], [*],
    [%], exact [/] and the unary signs, all of whose values (literals
    and intermediate results) have at most 28 digits and whose divisors
    are not zero, is answered with its exact integer value.  [/] and [%]
    are the quotient truncated towards zero and its remainder, which has
    the sign of the dividend. *)
Theorem integer_arithmetic_is_exact (R : Runtime) (e : IExpr) :
  in_range e = true ->
  evaluate R (to_tree e)
  = Sent (Text ("The answer is `" ++ str_of_Z (denote e) ++ "`")).
Proof.
  intros Hr.
  destruct (transform_integer R e Hr) as (v & s & c & Ht & Hd & Hs & Hv).
  pose proof (coeff_of_signed _ _ _ Hs (in_range_bound _ Hr)) as Hc.
  rewrite <- Hs.
  destruct e; cbn [to_tree] in *;
    try (specialize (Hv eq_refl); subst v; unfold evaluate; rewrite Ht;
         apply integer_answer, Hc).
  unfold evaluate. inversion Ht; subst v. rewrite Hd.
  apply integer_answer, Hc.
Qed.

Lemma integer_arithmetic_is_exact_witness :
  evaluate prompt
    (to_tree (IAdd (ILit 2) (IMul (ILit 3) (IRem (ILit (-7)) (ILit 3)))))
  = Sent (Text ("The answer is `"
                ++ str_of_Z
                     (denote (IAdd (ILit 2)
                                (IMul (ILit 3) (IRem (ILit (-7)) (ILit 3)))))
                ++ "`")).
Proof.
  apply (integer_arithmetic_is_exact prompt
           (IAdd (ILit 2) (IMul (ILit 3) (IRem (ILit (-7)) (ILit 3))))).
  vm_compute. reflexivity.
Defined.

(** ** A bare literal of 29 digits or more *)

(** X3: for every integer of 29 digits or more written as a bare
    literal, [res % 1] is impossible in the 28-digit context and the
    [InvalidOperation] leaves [do_calc]: nothing is sent. *)
Theorem long_literal_escapes (R : Runtime) (z : Z) :
  10 ^ 28 <= Z.abs z ->
  evaluate R (Token (str_of_Z z))
  = Escaped (DecimalException Dec.DivisionImpossible).
Proof.
  intros Hz. unfold evaluate, to_Decimal. rewrite parse_str_of_Z.
  unfold send_answer, answer, mod_one.
  rewrite rem_one_large; [reflexivity|].
  rewrite <- pow10_28 in Hz. lia.
Qed.

Lemma long_literal_escapes_witness :
  evaluate prompt (Token (str_of_Z (- 10 ^ 30)))
  = Escaped (DecimalException Dec.DivisionImpossible).
Proof.
  apply (long_literal_escapes prompt (- 10 ^ 30)). vm_compute. discriminate.
Defined.

(** ** When [sum] and [product] reach their last line *)

(** X6: [sum] raises [InvalidStateError] exactly when its second child
    exists and is neither [+] nor [-]; the operands are not looked at
    before. *)
Theorem sum_raises_InvalidStateError_iff (args : list Value) :
  Interpreter.sum args = Raise InvalidStateError
  <-> exists op, nth_error args 1 = Some op
                 /\ eq_str op "+" = false /\ eq_str op "-" = false.
Proof.
  unfold Interpreter.sum, index. split.
  - destruct (nth_error args 1) as [op|]; [|discriminate]. simpl.
    destruct (eq_str op "+") eqn:Ep.
    { intros H. exfalso. revert H.
      change (clean (a <- index args 0;; x <- to_Decimal a;;
                     b <- index args 2;; y <- to_Decimal b;;
                     r <- lift (Dec.add x y);; Ok (VDecimal r))).
      clean_steps. }
    destruct (eq_str op "-") eqn:Em.
    { intros H. exfalso. revert H.
      change (clean (a <- index args 0;; x <- to_Decimal a;;
                     b <- index args 2;; y <- to_Decimal b;;
                     r <- lift (Dec.sub x y);; Ok (VDecimal r))).
      clean_steps. }
    intros _. exists op. auto.
  - intros (op & H1 & H2 & H3). rewrite H1. simpl. rewrite H2, H3.
    reflexivity.
Qed.

(** X7: [product] raises [InvalidStateError] exactly when its second
    child exists and is none of [*], [/] and [%]. *)
Theorem product_raises_InvalidStateError_iff (args : list Value) :
  Interpreter.product args = Raise InvalidStateError
  <-> exists op, nth_error args 1 = Some op
                 /\ eq_str op "*" = false /\ eq_str op "/" = false
                 /\ eq_str op "%" = false.
Proof.
  unfold Interpreter.product, index. split.
  - destruct (nth_error args 1) as [op|]; [|discriminate]. simpl.
    destruct (eq_str op "*") eqn:E1.
    { intros H. exfalso. revert H.
      change (clean (a <- index args 0;; x <- to_Decimal a;;
                     b <- index args 2;; y <- to_Decimal b;;
                     r <- lift (Dec.mul x y);; Ok (VDecimal r))).
      clean_steps. }
    destruct (eq_str op "/") eqn:E2.
    { intros H. exfalso. revert H.
      change (clean (a <- index args 0;; x <- to_Decimal a;;
                     b <- index args 2;; y <- to_Decimal b;;
                     r <- lift (Dec.div x y);; Ok (VDecimal r))).
      clean_steps. }
    destruct (eq_str op "%") eqn:E3.
    { intros H. exfalso. revert H.
      change (clean (a <- index args 0;; x <- to_Decimal a;;
                     b <- index args 2;; y <- to_Decimal b;;
                     r <- lift (Dec.rem x y);; Ok (VDecimal r))).
      clean_steps. }
    intros _. exists op. auto.
  - intros (op & H1 & H2 & H3 & H4). rewrite H1. simpl.
    rewrite H2, H3, H4. reflexivity.
Qed.

(** ** What a node reduces to *)

(** Take a successful bind apart. *)
Lemma bind_Ok_inv {A B : Type} (c : Result A) (k : A -> Result B) (b : B) :
  bind c k = Ok b -> exists a, c = Ok a /\ k a = Ok b.
Proof. destruct c as [a|e]; simpl; [eauto | discriminate]. Qed.

Ltac bind_inv H :=
  repeat match type of H with
         | bind _ _ = Ok _ =>
             let a := fresh "a" in
             let Ha := fresh "Ha" in
             apply bind_Ok_inv in H as (a & Ha & H)
         | (if ?c then _ else _) = Ok _ => destruct c
         end.

Lemma sum_returns_Decimal (args : list Value) (v : Value) :
  Interpreter.sum args = Ok v -> exists d, v = VDecimal d.
Proof.
  unfold Interpreter.sum. intros H. bind_inv H;
    try discriminate; inversion H; eauto.
Qed.

Lemma product_returns_Decimal (args : list Value) (v : Value) :
  Interpreter.product args = Ok v -> exists d, v = VDecimal d.
Proof.
  unfold Interpreter.product. intros H. bind_inv H;
    try discriminate; inversion H; eauto.
Qed.

Lemma power_returns_Decimal (R : Runtime) (args : list Value) (v : Value) :
  Interpreter.power R args = Ok v -> exists d, v = VDecimal d.
Proof.
  unfold Interpreter.power. intros H. bind_inv H;
    try discriminate; inversion H; eauto.
Qed.

Lemma unary_returns_Decimal (args : list Value) (v : Value) :
  Interpreter.unary args = Ok v -> exists d, v = VDecimal d.
Proof.
  unfold Interpreter.unary. intros H. bind_inv H;
    try discriminate; inversion H; eauto.
Qed.

Lemma nargs_Ok_inv (R : Runtime) (n : nat) (args : list Value) (fn : string)
    (f : Impl.t) (v : Value) :
  Interpreter.nargs R n args fn f = Ok v ->
  exists xs, map_float args = Ok xs /\ List.length args = n
             /\ expired R fn xs = false /\ f xs = Ok v.
Proof.
  unfold Interpreter.nargs, Interpreter.caller. intros H.
  destruct (Nat.eqb_spec (List.length args) n) as [Hn|]; [|discriminate].
  simpl in H. apply bind_Ok_inv in H as (xs & Hxs & H).
  exists xs. destruct (expired R fn xs); [discriminate|].
  destruct (f xs) as [w|e]; [| destruct e; discriminate].
  inversion H. auto.
Qed.

Lemma function_call_returns_native (R : Runtime) (args : list Value)
    (v : Value) :
  Interpreter.function_call R args = Ok v -> is_native v = true.
Proof.
  unfold Interpreter.function_call. intros H.
  apply bind_Ok_inv in H as (name & _ & H).
  repeat match type of H with
         | (if ?c then _ else _) = Ok _ => destruct c
         end;
    try (apply nargs_Ok_inv in H as (xs & _ & _ & _ & H)).
  - exact (implementation_native R "abs" 1 xs v ltac:(simpl; tauto) H).
  - exact (implementation_native R "sin" 1 xs v ltac:(simpl; tauto) H).
  - exact (implementation_native R "cos" 1 xs v ltac:(simpl; tauto) H).
  - exact (implementation_native R "tan" 1 xs v ltac:(simpl; tauto) H).
  - exact (implementation_native R "deg_to_rad" 1 xs v ltac:(simpl; tauto) H).
  - exact (implementation_native R "rad_to_deg" 1 xs v ltac:(simpl; tauto) H).
  - exact (implementation_native R "sqrt" 1 xs v ltac:(simpl; tauto) H).
  - exact (implementation_native R "fact" 1 xs v ltac:(simpl; tauto) H).
  - exact (implementation_native R "log" 2 xs v ltac:(simpl; tauto) H).
  - discriminate.
  - apply bind_Ok_inv in H as (a & _ & H). discriminate.
Qed.

(** X8: a node that reduces gives a decimal under [sum], [product],
    [power] and [unary], a float or an int under [function_call], and
    the rebuilt tree under any other rule; it never gives a string. *)
Theorem node_result_kind (R : Runtime) (data : string) (cs : list ParseTree)
    (v : Value) :
  transform R (Tree data cs) = Ok v ->
  (In data ["sum"; "product"; "power"; "unary"] -> exists d, v = VDecimal d)
  /\ (data = "function_call" -> is_native v = true)
  /\ (~ In data ["sum"; "product"; "power"; "unary"; "function_call"] ->
      exists args, v = VTree data args)
  /\ (forall s, v <> VStr s).
Proof.
  rewrite transform_Tree. intros H.
  apply bind_Ok_inv in H as (args & _ & H). unfold call_userfunc in H.
  destruct (String.eqb_spec data "sum") as [-> | N1].
  { apply sum_returns_Decimal in H as (d & ->).
    repeat split; try discriminate; eauto. intros N. exfalso. apply N. simpl. tauto. }
  destruct (String.eqb_spec data "product") as [-> | N2].
  { apply product_returns_Decimal in H as (d & ->).
    repeat split; try discriminate; eauto. intros N. exfalso. apply N. simpl. tauto. }
  destruct (String.eqb_spec data "power") as [-> | N3].
  { apply power_returns_Decimal in H as (d & ->).
    repeat split; try discriminate; eauto. intros N. exfalso. apply N. simpl. tauto. }
  destruct (String.eqb_spec data "unary") as [-> | N4].
  { apply unary_returns_Decimal in H as (d & ->).
    repeat split; try discriminate; eauto. intros N. exfalso. apply N. simpl. tauto. }
  destruct (String.eqb_spec data "function_call") as [-> | N5].
  { apply function_call_returns_native in H.
    repeat split; auto.
    - simpl. intros [E|[E|[E|[E|[]]]]]; discriminate.
    - intros N. exfalso. apply N. simpl. tauto.
    - intros s ->. discriminate. }
  inversion H. subst v. repeat split; try discriminate; eauto.
  simpl. intros [E|[E|[E|[E|[]]]]]; congruence.
Qed.

Lemma node_result_kind_witness :
  (In "sum" ["sum"; "product"; "power"; "unary"] ->
   exists d, VDecimal (Dec.Finite false 3 0) = VDecimal d)
  /\ ("sum" = "function_call" -> is_native (VDecimal (Dec.Finite false 3 0)) = true)
  /\ (~ In "sum" ["sum"; "product"; "power"; "unary"; "function_call"] ->
      exists args, VDecimal (Dec.Finite false 3 0) = VTree "sum" args)
  /\ (forall s, VDecimal (Dec.Finite false 3 0) <> VStr s).
Proof.
  apply (node_result_kind prompt "sum" [Token "1"; Token "+"; Token "2"]).
  vm_compute. reflexivity.
Defined.

(** ** Failures go up unchanged *)

Lemma transform_children_fails (R : Runtime) (pre post : list ParseTree)
    (c : ParseTree) (vs : list Value) (e : Exn) :
  transform_children R pre = Ok vs ->
  transform R c = Raise e ->
  transform_children R (pre ++ c :: post) = Raise e.
Proof.
  revert vs. induction pre as [|p pre IH]; intros vs Hpre Hc.
  - simpl app. rewrite transform_children_cons, Hc. reflexivity.
  - simpl app. rewrite transform_children_cons in *.
    destruct (transform R p) as [v|]; [simpl in * | discriminate].
    destruct (transform_children R pre) as [ws|] eqn:E; [|discriminate].
    rewrite (IH ws eq_refl Hc). reflexivity.
Qed.

(** X9: an exception raised by a subtree that is reached (everything
    reduced before it succeeds) is the exception of the whole tree,
    unchanged, whatever the enclosing nodes are.  [do_calc] then sends
    the first argument of a [Debug] and the message of a [ValueError]. *)
Theorem failure_reaches_the_root (R : Runtime) (t sub : ParseTree) (e : Exn) :
  reached R t sub ->
  transform R sub = Raise e ->
  transform R t = Raise e
  /\ (forall a rest, e = Debug (a :: rest) -> evaluate R t = Sent (Object a))
  /\ (forall m, e = ValueError m -> evaluate R t = Sent (Text m)).
Proof.
  intros Hreach Hsub.
  assert (Ht : transform R t = Raise e).
  { induction Hreach as [t | data pre post c sub vs Hpre _ IH]; [exact Hsub|].
    rewrite transform_Tree,
      (transform_children_fails R pre post c vs e Hpre (IH Hsub)).
    reflexivity. }
  destruct t as [s | data cs]; [discriminate|].
  split; [exact Ht|]. split.
  - intros a rest ->. unfold evaluate. rewrite Ht. reflexivity.
  - intros m ->. apply evaluate_ValueError, Ht.
Qed.

Lemma failure_reaches_the_root_witness :
  transform prompt
    (Tree "sum" [Token "1"; Token "+";
                 Tree "function_call" [Token "debug"; Token "3"]])
  = Raise (Debug [VStr "3"])
  /\ (forall a rest, Debug [VStr "3"] = Debug (a :: rest) ->
      evaluate prompt
        (Tree "sum" [Token "1"; Token "+";
                     Tree "function_call" [Token "debug"; Token "3"]])
      = Sent (Object a))
  /\ (forall m, Debug [VStr "3"] = ValueError m ->
      evaluate prompt
        (Tree "sum" [Token "1"; Token "+";
                     Tree "function_call" [Token "debug"; Token "3"]])
      = Sent (Text m)).
Proof.
  apply (failure_reaches_the_root prompt
           (Tree "sum" ([Token "1"; Token "+"]
                        ++ Tree "function_call" [Token "debug"; Token "3"]
                        :: []))
           (Tree "function_call" [Token "debug"; Token "3"])).
  - apply (reached_below prompt "sum" [Token "1"; Token "+"] []
             _ _ [VStr "1"; VStr "+"]).
    + reflexivity.
    + apply reached_here.
  - reflexivity.
Defined.

(** ** No timeout error leaves the interpreter *)

Lemma timeless_bind {A B : Type} (c : Result A) (k : A -> Result B) :
  timeless c -> (forall a, timeless (k a)) -> timeless (bind c k).
Proof. intros Hc Hk. destruct c; simpl; [apply Hk | exact Hc]. Qed.

Lemma timeless_lift {A : Type} (o : Dec.outcome A) : timeless (lift o).
Proof. destruct o; simpl; auto. Qed.

Lemma timeless_index (args : list Value) (i : nat) : timeless (index args i).
Proof. unfold index. destruct (nth_error args i); simpl; auto. Qed.

Lemma timeless_to_Decimal (v : Value) : timeless (to_Decimal v).
Proof.
  destruct v; simpl; auto.
  destruct (Literal.parse s) as [[[sg c] e]|]; simpl; auto.
Qed.

Lemma timeless_to_float (v : Value) : timeless (to_float v).
Proof.
  destruct v; simpl; auto.
  - destruct (Literal.parse s) as [[[sg c] e]|]; simpl; auto.
  - destruct (PyFloat.is_inf (PyFloat.of_Z z)); simpl; auto.
Qed.

Lemma timeless_map_float (args : list Value) : timeless (map_float args).
Proof.
  induction args as [|a args IH]; simpl; auto.
  apply timeless_bind; [apply timeless_to_float|]. intros x.
  apply timeless_bind; [exact IH|]. intros xs. simpl. auto.
Qed.

Ltac timeless_steps :=
  repeat (first
    [ apply timeless_lift | apply timeless_index | apply timeless_to_Decimal
    | apply timeless_to_float | apply timeless_map_float
    | apply timeless_bind; [| intros ?]
    | match goal with
      | |- timeless (if ?c then _ else _) => destruct c
      end
    | exact I | reflexivity ]).

(** Whatever the function does, [nargs] lets no timeout error out. *)
Lemma timeless_nargs (R : Runtime) (n : nat) (args : list Value)
    (fn : string) (f : Impl.t) :
  (forall xs, timeless (f xs)) -> timeless (Interpreter.nargs R n args fn f).
Proof.
  intros Hf. unfold Interpreter.nargs, Interpreter.caller.
  destruct (negb (Nat.eqb (List.length args) n)); [reflexivity|].
  apply timeless_bind; [apply timeless_map_float|]. intros xs.
  destruct (expired R fn xs); [reflexivity|].
  specialize (Hf xs). destruct (f xs) as [v | e]; [exact I|].
  destruct e; simpl in *; auto.
Qed.

Lemma timeless_unary_fn (f : PyFloat.float -> Result Value)
    (xs : list PyFloat.float) :
  (forall x, timeless (f x)) -> timeless (Impl.unary_fn f xs).
Proof.
  intros H. unfold Impl.unary_fn, Impl.bad_call.
  destruct xs as [|x [|y xs]]; simpl; auto.
Qed.

Lemma timeless_math_1 (f : PyFloat.float -> PyFloat.float) (x : PyFloat.float) :
  timeless (Impl.math_1 f x).
Proof. unfold Impl.math_1. timeless_steps. Qed.

Lemma timeless_implementation (R : Runtime) (name : string)
    (xs : list PyFloat.float) :
  timeless (implementation R name xs).
Proof.
  unfold implementation.
  repeat match goal with
         | |- timeless ((if ?c then _ else _) _) => destruct c
         end;
    try (apply timeless_unary_fn; intros x; unfold Impl.float_result;
         cbv zeta; timeless_steps; apply timeless_math_1).
  - unfold Impl.log, Impl.bad_call.
    destruct xs as [|x [|b [|z xs]]]; simpl; auto.
    timeless_steps; apply timeless_math_1.
  - reflexivity.
Qed.

Lemma timeless_function_call (R : Runtime) (args : list Value) :
  timeless (Interpreter.function_call R args).
Proof.
  unfold Interpreter.function_call.
  apply timeless_bind; [apply timeless_index|]. intros name.
  repeat match goal with
         | |- timeless (if ?c then _ else _) => destruct c
         end;
    try (apply timeless_nargs; intros xs).
  - exact (timeless_implementation R "abs" xs).
  - exact (timeless_implementation R "sin" xs).
  - exact (timeless_implementation R "cos" xs).
  - exact (timeless_implementation R "tan" xs).
  - exact (timeless_implementation R "deg_to_rad" xs).
  - exact (timeless_implementation R "rad_to_deg" xs).
  - exact (timeless_implementation R "sqrt" xs).
  - exact (timeless_implementation R "fact" xs).
  - exact (timeless_implementation R "log" xs).
  - reflexivity.
  - timeless_steps.
Qed.

Lemma timeless_call_userfunc (R : Runtime) (data : string)
    (args : list Value) :
  timeless (call_userfunc R data args).
Proof.
  unfold call_userfunc.
  repeat match goal with
         | |- timeless (if ?c then _ else _) => destruct c
         end;
    [ unfold Interpreter.sum | unfold Interpreter.product
    | unfold Interpreter.power | unfold Interpreter.unary
    | apply timeless_function_call | exact I ];
    timeless_steps.
Qed.

Lemma timeless_transform (R : Runtime) (t : ParseTree) :
  timeless (transform R t).
Proof.
  induction t as [s | data cs IH] using ParseTree_induction; [exact I|].
  rewrite transform_Tree. apply timeless_bind.
  - induction IH as [|c cs Hc _ IHcs]; [exact I|].
    rewrite transform_children_cons.
    apply timeless_bind; [exact Hc|]. intros v.
    apply timeless_bind; [exact IHcs|]. intros vs. exact I.
  - intros args. apply timeless_call_userfunc.
Qed.

(** X10: no reduction, of any tree, raises the builtin [TimeoutError]
    or the decorator's, and [Decimal] of a token never raises a
    [ValueError]: neither of the two branches of [do_calc] that answer
    [Encountered an error while evaluating] is ever taken. *)
Theorem no_timeout_error_reaches_do_calc (R : Runtime) :
  (forall (t : ParseTree) (m : string),
     transform R t <> Raise (TimeoutError m)
     /\ transform R t <> Raise TimeoutDecoratorTimeoutError)
  /\ (forall s m : string, to_Decimal (VStr s) <> Raise (ValueError m)).
Proof.
  split.
  - intros t m. pose proof (timeless_transform R t) as H.
    split; intros E; rewrite E in H; discriminate H.
  - intros s m. simpl.
    destruct (Literal.parse s) as [[[sg c] e]|]; discriminate.
Qed.

(** ** Calls of one argument *)

Lemma call_of_one (R : Runtime) (name : string) (c : ParseTree) (a : Value)
    (x : PyFloat.float) :
  In (name, 1%nat) registered ->
  transform R c = Ok a ->
  to_float a = Ok x ->
  transform R (Tree "function_call" [Token name; c])
  = if expired R name [x] then Raise (ValueError (timeout_message name))
    else match implementation R name [x] with
         | Raise TimeoutDecoratorTimeoutError =>
             Raise (ValueError (timeout_message name))
         | r => r
         end.
Proof.
  intros Hreg Hc Ha.
  assert (Hcs : transform_children R [c] = Ok [a]).
  { rewrite transform_children_cons, Hc. reflexivity. }
  assert (Hxs : map_float [a] = Ok [x]).
  { unfold map_float. rewrite Ha. reflexivity. }
  rewrite (transform_call R name [c] [a] Hcs).
  rewrite (function_call_registered R name 1 [a] Hreg).
  destruct (expired R name [x]) eqn:Hexp.
  - apply nargs_expired with (xs := [x]); auto.
  - apply nargs_in_time; auto.
Qed.

(** [math.sqrt] of a negative float *)
Lemma sqrt_negative (x : PyFloat.float) :
  PyFloat.is_negative x = true ->
  Impl.sqrt [x] = Raise (ValueError "math domain error").
Proof.
  destruct x as [s | s | | s m e]; try discriminate;
    destruct s; try discriminate; intros _; reflexivity.
Qed.

(** X11: [sqrt] of an argument whose float is negative fails with a
    [ValueError], which [do_calc] sends. *)
Theorem sqrt_of_negative_raises_ValueError (R : Runtime) (c : ParseTree)
    (a : Value) (x : PyFloat.float) :
  transform R c = Ok a ->
  to_float a = Ok x ->
  PyFloat.is_negative x = true ->
  exists m,
    transform R (Tree "function_call" [Token "sqrt"; c]) = Raise (ValueError m)
    /\ evaluate R (Tree "function_call" [Token "sqrt"; c]) = Sent (Text m).
Proof.
  intros Hc Ha Hx.
  assert (Ht : exists m, transform R (Tree "function_call" [Token "sqrt"; c])
                         = Raise (ValueError m)).
  { rewrite (call_of_one R "sqrt" c a x ltac:(simpl; tauto) Hc Ha).
    destruct (expired R "sqrt" [x]); [eauto|].
    change (implementation R "sqrt" [x]) with (Impl.sqrt [x]).
    rewrite (sqrt_negative x Hx). eauto. }
  destruct Ht as [m Hm]. exists m.
  split; [exact Hm | apply evaluate_ValueError, Hm].
Qed.

Lemma sqrt_of_negative_raises_ValueError_witness :
  exists m,
    transform prompt
      (Tree "function_call" [Token "sqrt"; Tree "unary" [Token "-"; Token "4"]])
    = Raise (ValueError m)
    /\ evaluate prompt
         (Tree "function_call"
            [Token "sqrt"; Tree "unary" [Token "-"; Token "4"]])
       = Sent (Text m).
Proof.
  apply (sqrt_of_negative_raises_ValueError prompt
           (Tree "unary" [Token "-"; Token "4"])
           (VDecimal (Dec.Finite true 4 0))
           (S754_finite true 4503599627370496 (-50))).
  - vm_compute. reflexivity.
  - vm_compute. reflexivity.
  - reflexivity.
Defined.

(** ** [log] *)

Lemma call_of_two (R : Runtime) (name : string) (c1 c2 : ParseTree)
    (a1 a2 : Value) (x1 x2 : PyFloat.float) :
  In (name, 2%nat) registered ->
  transform R c1 = Ok a1 -> transform R c2 = Ok a2 ->
  to_float a1 = Ok x1 -> to_float a2 = Ok x2 ->
  transform R (Tree "function_call" [Token name; c1; c2])
  = if expired R name [x1; x2]
    then Raise (ValueError (timeout_message name))
    else match implementation R name [x1; x2] with
         | Raise TimeoutDecoratorTimeoutError =>
             Raise (ValueError (timeout_message name))
         | r => r
         end.
Proof.
  intros Hreg Hc1 Hc2 Ha1 Ha2.
  assert (Hcs : transform_children R [c1; c2] = Ok [a1; a2]).
  { rewrite !transform_children_cons, Hc1. simpl. rewrite Hc2. reflexivity. }
  assert (Hxs : map_float [a1; a2] = Ok [x1; x2]).
  { unfold map_float. rewrite Ha1. simpl. rewrite Ha2. reflexivity. }
  rewrite (transform_call R name [c1; c2] [a1; a2] Hcs).
  rewrite (function_call_registered R name 2 [a1; a2] Hreg).
  destruct (expired R name [x1; x2]) eqn:Hexp.
  - apply nargs_expired with (xs := [x1; x2]); auto.
  - apply nargs_in_time; auto.
Qed.

Lemma log_of_nonpositive (R : Runtime) (x base : PyFloat.float) :
  PyFloat.is_negative x = true \/ PyFloat.is_zero x = true ->
  Impl.log R [x; base] = Raise (ValueError "math domain error").
Proof.
  intros H. unfold Impl.log.
  assert (Hm : Impl.math_1 (Impl.m_log R) x
               = Raise (ValueError "math domain error")).
  { destruct x as [s | s | | s m e]; destruct H as [H | H];
      try discriminate; try (destruct s; try discriminate); reflexivity. }
  rewrite Hm. reflexivity.
Qed.

(** X12: [log] of a value whose float is zero or negative fails with a
    [ValueError], whatever the base. *)
Theorem log_of_nonpositive_raises_ValueError (R : Runtime)
    (c1 c2 : ParseTree) (a1 a2 : Value) (x base : PyFloat.float) :
  transform R c1 = Ok a1 -> transform R c2 = Ok a2 ->
  to_float a1 = Ok x -> to_float a2 = Ok base ->
  PyFloat.is_negative x = true \/ PyFloat.is_zero x = true ->
  exists m,
    transform R (Tree "function_call" [Token "log"; c1; c2])
    = Raise (ValueError m)
    /\ evaluate R (Tree "function_call" [Token "log"; c1; c2])
       = Sent (Text m).
Proof.
  intros Hc1 Hc2 Ha1 Ha2 Hx.
  assert (Ht : exists m,
             transform R (Tree "function_call" [Token "log"; c1; c2])
             = Raise (ValueError m)).
  { rewrite (call_of_two R "log" c1 c2 a1 a2 x base
               ltac:(simpl; tauto) Hc1 Hc2 Ha1 Ha2).
    destruct (expired R "log" [x; base]); [eauto|].
    change (implementation R "log" [x; base]) with (Impl.log R [x; base]).
    rewrite (log_of_nonpositive R x base Hx). eauto. }
  destruct Ht as [m Hm]. exists m.
  split; [exact Hm | apply evaluate_ValueError, Hm].
Qed.

Lemma log_of_nonpositive_raises_ValueError_witness :
  exists m,
    transform prompt (Tree "function_call" [Token "log"; Token "0"; Token "2"])
    = Raise (ValueError m)
    /\ evaluate prompt
         (Tree "function_call" [Token "log"; Token "0"; Token "2"])
       = Sent (Text m).
Proof.
  apply (log_of_nonpositive_raises_ValueError prompt
           (Token "0") (Token "2") (VStr "0") (VStr "2")
           (S754_zero false) (S754_finite false 4503599627370496 (-51))).
  - reflexivity.
  - reflexivity.
  - vm_compute. reflexivity.
  - vm_compute. reflexivity.
  - right. reflexivity.
Defined.

(** X13: [log] of a positive value to a positive base whose logarithm is
    zero (base 1) divides by zero: the call fails with a
    [ZeroDivisionError], not a [ValueError], and [do_calc] sends
    [float division by zero]. *)
Theorem log_with_base_of_zero_logarithm (R : Runtime) (c1 c2 : ParseTree)
    (a1 a2 : Value) (mx mb : positive) (ex eb : Z) :
  transform R c1 = Ok a1 -> transform R c2 = Ok a2 ->
  to_float a1 = Ok (S754_finite false mx ex) ->
  to_float a2 = Ok (S754_finite false mb eb) ->
  expired R "log" [S754_finite false mx ex; S754_finite false mb eb] = false ->
  PyFloat.is_finite (libm_log R (S754_finite false mx ex)) = true ->
  PyFloat.is_zero (libm_log R (S754_finite false mb eb)) = true ->
  transform R (Tree "function_call" [Token "log"; c1; c2])
  = Raise (ZeroDivisionError "float division by zero")
  /\ evaluate R (Tree "function_call" [Token "log"; c1; c2])
     = Sent (Text "float division by zero").
Proof.
  intros Hc1 Hc2 Ha1 Ha2 Hexp Hfin Hzero.
  assert (Ht : transform R (Tree "function_call" [Token "log"; c1; c2])
               = Raise (ZeroDivisionError "float division by zero")).
  { rewrite (call_of_two R "log" c1 c2 a1 a2
               (S754_finite false mx ex) (S754_finite false mb eb)
               ltac:(simpl; tauto) Hc1 Hc2 Ha1 Ha2).
    unfold PyFloat.float in *. rewrite Hexp.
    change (implementation R "log" ?xs) with (Impl.log R xs).
    unfold Impl.log, Impl.math_1. cbn [Impl.m_log].
    destruct (libm_log R (S754_finite false mx ex)); try discriminate;
      destruct (libm_log R (S754_finite false mb eb)); try discriminate;
      reflexivity. }
  split; [exact Ht|]. unfold evaluate. rewrite Ht. reflexivity.
Qed.

Lemma log_with_base_of_zero_logarithm_witness :
  transform prompt (Tree "function_call" [Token "log"; Token "8"; Token "1"])
  = Raise (ZeroDivisionError "float division by zero")
  /\ evaluate prompt
       (Tree "function_call" [Token "log"; Token "8"; Token "1"])
     = Sent (Text "float division by zero").
Proof.
  apply (log_with_base_of_zero_logarithm prompt
           (Token "8") (Token "1") (VStr "8") (VStr "1")
           4503599627370496 4503599627370496 (-49) (-52)).
  - reflexivity.
  - reflexivity.
  - vm_compute. reflexivity.
  - vm_compute. reflexivity.
  - reflexivity.
  - reflexivity.
  - reflexivity.
Defined.

(** ** A float with an integer value at the root *)

Lemma mod1_integral (x : PyFloat.float) :
  PyFloat.is_finite x = true -> PyFloat.is_integral x = true ->
  PyFloat.mod1 x = S754_zero false.
Proof.
  intros Hf Hi. unfold PyFloat.mod1.
  assert (Hz : exists s, PyFloat.fmod1 x = S754_zero s).
  { destruct x as [s | s | | s m e]; try discriminate; simpl.
    - eauto.
    - simpl in Hi. destruct (0 <=? e); [eauto|].
      simpl in Hi. rewrite Hi. eauto. }
  destruct Hz as [s ->]. reflexivity.
Qed.

Lemma ratio_integral (x : PyFloat.float) :
  PyFloat.is_finite x = true -> PyFloat.is_integral x = true ->
  PyFloat.as_integer_ratio x = Some (PyFloat.to_Z x, 1).
Proof.
  intros Hf Hi. destruct x as [s | s | | s m e]; try discriminate.
  - reflexivity.
  - unfold PyFloat.is_integral in Hi.
    unfold PyFloat.as_integer_ratio, PyFloat.to_Z.
    destruct (Z.leb_spec 0 e) as [He | He].
    + destruct s; reflexivity.
    + cbn [orb] in Hi. apply Z.eqb_eq in Hi. cbv zeta.
      assert (Hd : 0 < 2 ^ (- e)) by (apply Z.pow_pos_nonneg; lia).
      assert (Hg : Z.gcd (Z.pos m) (2 ^ (- e)) = 2 ^ (- e)).
      { rewrite Z.gcd_comm. apply Z.divide_gcd_iff; [lia|].
        apply Z.mod_divide; [lia | exact Hi]. }
      rewrite Hg, Z.div_same by lia. destruct s; reflexivity.
Qed.

(** X4: when the whole expression reduces to a finite float with an
    integer value, [do_calc] answers with that integer alone. *)
Theorem integral_float_is_answered_as_integer (R : Runtime) (data : string)
    (cs : list ParseTree) (x : PyFloat.float) :
  transform R (Tree data cs) = Ok (VFloat x) ->
  PyFloat.is_finite x = true ->
  PyFloat.is_integral x = true ->
  evaluate R (Tree data cs)
  = Sent (Text ("The answer is `" ++ str_of_Z (PyFloat.to_Z x) ++ "`")).
Proof.
  intros Ht Hf Hi. unfold evaluate. rewrite Ht.
  unfold send_answer, answer, mod_one. cbn [bind gt_epsilon].
  rewrite (mod1_integral x Hf Hi).
  change (PyFloat.ltb PyFloat.epsilon (S754_zero false)) with false.
  cbn [bind].
  assert (HF : Fraction (VFloat x) = Ok (PyFloat.to_Z x, 1)).
  { unfold Fraction. rewrite (ratio_integral x Hf Hi).
    destruct x; try discriminate; reflexivity. }
  rewrite HF. reflexivity.
Qed.

Lemma integral_float_is_answered_as_integer_witness :
  evaluate prompt (Tree "function_call" [Token "sqrt"; Token "16"])
  = Sent (Text ("The answer is `"
                ++ str_of_Z (PyFloat.to_Z
                               (S754_finite false 4503599627370496 (-50)))
                ++ "`")).
Proof.
  apply (integral_float_is_answered_as_integer prompt "function_call"
           [Token "sqrt"; Token "16"]
           (S754_finite false 4503599627370496 (-50))).
  - vm_compute. reflexivity.
  - reflexivity.
  - reflexivity.
Defined.

(** ** The answer for a decimal with few decimal places *)

Lemma pow10_pos (k : Z) : (0 < Dec.pow10 k)%N.
Proof. unfold Dec.pow10. apply N.neq_0_lt_0, N.pow_nonzero. discriminate. Qed.

Lemma pow10_le (j k : Z) : 0 <= j <= k -> (Dec.pow10 j <= Dec.pow10 k)%N.
Proof. intros H. unfold Dec.pow10. apply N.pow_le_mono_r; lia. Qed.

(** [d % 1] for a decimal of at most 28 digits and at most 28 decimal
    places: the digits after the point, with the sign of [d]. *)
Lemma rem_one_fraction (s : bool) (c : N) (e : Z) :
  (c < Dec.pow10 28)%N -> -28 <= e <= 0 ->
  Dec.rem (Dec.Finite s c e) Dec.one
  = Dec.Done (Dec.Finite s (c mod Dec.pow10 (- e)) e).
Proof.
  intros Hc He. unfold Dec.rem, Dec.one. cbn [N.eqb]. cbv zeta.
  replace (Z.min e 0) with e by lia. replace (e - e) with 0 by lia.
  change (Dec.pow10 0) with 1%N. rewrite !N.mul_1_r, N.mul_1_l.
  replace (0 - e) with (- e) by lia.
  pose proof (ndigits_small c 28 ltac:(lia) Hc) as Hn.
  pose proof (ndigits_pos c) as Hp.
  pose proof (pow10_pos (- e)) as Hpe.
  assert (Hfix : forall r, (r < Dec.pow10 28)%N ->
            Dec.fix_ (Dec.Finite s r e) = Dec.Done (Dec.Finite s r e)).
  { intros r Hr. apply fix_unchanged.
    - apply ndigits_small; [unfold Dec.prec; lia | exact Hr].
    - unfold Dec.Etiny, Dec.Emin, Dec.prec. lia.
    - unfold Dec.Etop, Dec.Emax, Dec.prec. lia. }
  destruct (N.eqb_spec c 0) as [-> | Hnz].
  - rewrite N.Div0.mod_0_l. apply Hfix. reflexivity.
  - unfold Dec.adjusted. change (ndigits 1) with 1.
    destruct (Z.leb_spec (e + ndigits c - 1 - (0 + 1 - 1)) (-2)) as [H1 | H1].
    + (* below one tenth: the remainder is the number itself *)
      rewrite N.mod_small; [apply Hfix, Hc|].
      pose proof (nd_upper c) as Hu. unfold ndigits in H1. fold (nd c) in H1.
      assert (Hle : (10 ^ N.of_nat (nd c) <= Dec.pow10 (- e))%N).
      { unfold Dec.pow10. apply N.pow_le_mono_r; lia. }
      lia.
    + destruct (Z.leb_spec (e + ndigits c - 1 - (0 + 1 - 1)) Dec.prec)
        as [H2 | H2]; [| unfold Dec.prec in H2; lia].
      assert (Hq : (c / Dec.pow10 (- e) <? Dec.pow10 Dec.prec)%N = true).
      { apply N.ltb_lt. change Dec.prec with 28.
        assert (c / Dec.pow10 (- e) <= c)%N
          by (apply N.Div0.div_le_upper_bound; nia).
        lia. }
      rewrite Hq. apply Hfix.
      pose proof (N.mod_lt c (Dec.pow10 (- e)) ltac:(lia)).
      pose proof (pow10_le (- e) 28 ltac:(lia)). lia.
Qed.

Lemma epsilon_small (r : N) (e : Z) :
  -15 <= e <= 0 -> r <> 0%N ->
  2220446049250313080847263336181640625 < Z.of_N (r * Dec.pow10 (e - -52)).
Proof.
  intros He Hr.
  pose proof (pow10_le 37 (e - -52) ltac:(lia)) as Hp.
  assert (H37 : Z.of_N (Dec.pow10 37) = 10 ^ 37) by reflexivity.
  assert (2220446049250313080847263336181640625 < 10 ^ 37) by reflexivity.
  nia.
Qed.

Lemma gt_epsilon_fraction (s : bool) (r : N) (e : Z) :
  -15 <= e <= 0 ->
  gt_epsilon (VDecimal (Dec.Finite s r e))
  = Ok (negb s && negb (N.eqb r 0)).
Proof.
  intros He. unfold gt_epsilon. rewrite of_float_epsilon.
  unfold Dec.gt, lift. replace (Z.min e (-52)) with (-52) by lia.
  f_equal. unfold Dec.scaled.
  change (Dec.pow10 (-52 - -52)) with 1%N.
  destruct (N.eqb_spec r 0) as [-> | Hr].
  - simpl N.mul. destruct s; reflexivity.
  - pose proof (epsilon_small r e He Hr) as Hlt.
    rewrite N.mul_1_r. destruct s; simpl negb; simpl andb.
    + apply Z.ltb_ge. lia.
    + apply Z.ltb_lt. exact Hlt.
Qed.

Lemma one_minus_fraction (r : N) (e : Z) :
  -15 <= e < 0 -> (r < Dec.pow10 (- e))%N ->
  one_minus (VDecimal (Dec.Finite false r e))
  = Ok (VDecimal (Dec.Finite false (Dec.pow10 (- e) - r) e)).
Proof.
  intros He Hr. unfold one_minus, Dec.sub, Dec.one, Dec.negate, Dec.add.
  cbn [negb]. cbv beta iota zeta. replace (Z.min 0 e) with e by lia.
  replace (e - e) with 0 by lia. replace (0 - e) with (- e) by lia.
  change (Dec.pow10 0) with 1%N. rewrite N.mul_1_l, N.mul_1_r.
  set (z := Z.of_N (Dec.pow10 (- e)) + - Z.of_N r).
  assert (Hz : 0 < z) by (unfold z; lia).
  assert (Hzn : Z.abs_N z = (Dec.pow10 (- e) - r)%N) by (unfold z; lia).
  destruct (Z.eqb_spec z 0) as [|_]; [lia|].
  destruct (Z.ltb_spec z 0) as [|_]; [lia|].
  rewrite Hzn.
  rewrite fix_unchanged; [reflexivity | | |].
  - apply ndigits_small; [unfold Dec.prec; lia|]. change Dec.prec with 28.
    pose proof (pow10_le (- e) 15 ltac:(lia)).
    assert (Dec.pow10 15 < Dec.pow10 28)%N by reflexivity. lia.
  - unfold Dec.Etiny, Dec.Emin, Dec.prec. lia.
  - unfold Dec.Etop, Dec.Emax, Dec.prec. lia.
Qed.

(** [Decimal.as_integer_ratio] of a number with no positive exponent:
    the one pair in lowest terms with a positive denominator. *)
Lemma decimal_ratio_lowest (s : bool) (c : N) (e : Z) :
  e <= 0 ->
  exists n d : Z,
    Dec.as_integer_ratio (Dec.Finite s c e) = Some (n, d)
    /\ 0 < d /\ Z.gcd n d = 1 /\ n * 10 ^ (- e) = signed s c * d.
Proof.
  intros He. unfold Dec.as_integer_ratio. cbv zeta.
  destruct (Z.leb_spec 0 e) as [H0 | H0].
  - assert (e = 0) by lia. subst e. change (Dec.pow10 0) with 1%N.
    rewrite N.mul_1_r. exists (signed s c), 1. fold (signed s c).
    change (10 ^ (- 0)) with 1.
    repeat split; try lia. apply Z.gcd_1_r.
  - rewrite (pow10_Z (- e)) by lia.
    assert (Hden : 0 < 10 ^ (- e)) by (apply Z.pow_pos_nonneg; lia).
    set (den := 10 ^ (- e)) in *. set (g := Z.gcd (Z.of_N c) den).
    assert (Hg : 0 < g).
    { pose proof (Z.gcd_nonneg (Z.of_N c) den).
      assert (g <> 0) by (unfold g; intros E; apply Z.gcd_eq_0_r in E; lia).
      unfold g in *. lia. }
    destruct (Z.gcd_divide_l (Z.of_N c) den) as [c' Hc'].
    destruct (Z.gcd_divide_r (Z.of_N c) den) as [d' Hd'].
    fold g in Hc', Hd'.
    assert (Hqc : Z.of_N c / g = c') by (rewrite Hc'; apply Z.div_mul; lia).
    assert (Hqd : den / g = d') by (rewrite Hd'; apply Z.div_mul; lia).
    assert (Hone : Z.gcd (Z.of_N c / g) (den / g) = 1)
      by (apply Z.gcd_div_gcd; [lia | reflexivity]).
    assert (Hd0 : 0 < d') by nia.
    assert (Hc0 : 0 <= c') by nia.
    exists (if s then - (Z.of_N c / g) else Z.of_N c / g), (den / g).
    split; [reflexivity|]. rewrite Hqc, Hqd in *.
    unfold signed. destruct s.
    + rewrite Z.gcd_opp_l. repeat split; try assumption; nia.
    + repeat split; try assumption; nia.
Qed.

(** X2: a root that reduces to a decimal of at most 28 digits and at
    most 15 decimal places is answered with its fraction in lowest
    terms (the one pair [n], [d] with [d] positive, no common divisor
    and [n / d] the value), and with its float as well exactly when it
    is positive and not an integer; a negative number never gets the
    float. *)
Theorem decimal_answer (R : Runtime) (data : string) (cs : list ParseTree)
    (s : bool) (c : N) (e : Z) :
  transform R (Tree data cs) = Ok (VDecimal (Dec.Finite s c e)) ->
  (c < Dec.pow10 28)%N ->
  -15 <= e <= 0 ->
  exists n d : Z,
    0 < d /\ Z.gcd n d = 1 /\ n * 10 ^ (- e) = signed s c * d
    /\ evaluate R (Tree data cs)
       = Sent (Text
           (if negb s && negb (N.eqb (c mod Dec.pow10 (- e)) 0)
            then fraction_and_float R (n, d)
                   (Dec.to_float (Dec.Finite s c e))
            else fraction_only (n, d))).
Proof.
  intros Ht Hc He.
  destruct (decimal_ratio_lowest s c e ltac:(lia))
    as (n & d & Hr & Hd & Hg & Hv).
  exists n, d. repeat split; try assumption.
  assert (HF : Fraction (VDecimal (Dec.Finite s c e)) = Ok (n, d)).
  { unfold Fraction. rewrite Hr. reflexivity. }
  unfold evaluate. rewrite Ht.
  unfold send_answer, answer, mod_one.
  rewrite (rem_one_fraction s c e Hc ltac:(lia)). cbn [lift bind].
  rewrite (gt_epsilon_fraction s _ e He).
  destruct s; cbn [negb andb bind].
  - rewrite HF. reflexivity.
  - destruct (N.eqb_spec (c mod Dec.pow10 (- e)) 0) as [E | E];
      cbn [negb bind].
    + rewrite HF. reflexivity.
    + assert (He' : e < 0).
      { destruct (Z.eq_dec e 0) as [-> |]; [|lia].
        exfalso. apply E. change (Dec.pow10 (- 0)) with 1%N.
        apply N.mod_1_r. }
      pose proof (N.mod_lt c (Dec.pow10 (- e))
                    ltac:(pose proof (pow10_pos (- e)); lia)) as Hrm.
      cbn [lift bind].
      rewrite (one_minus_fraction _ e ltac:(lia) Hrm). cbn [bind].
      rewrite (gt_epsilon_fraction false _ e He).
      assert (Hnz : N.eqb (Dec.pow10 (- e) - c mod Dec.pow10 (- e)) 0 = false)
        by (apply N.eqb_neq; lia).
      rewrite Hnz. cbn [negb andb bind]. rewrite HF. reflexivity.
Qed.

Lemma decimal_answer_witness :
  exists n d : Z,
    0 < d /\ Z.gcd n d = 1 /\ n * 10 ^ (- -1) = signed false 25 * d
    /\ evaluate prompt (Tree "unary" [Token "+"; Token "2.5"])
       = Sent (Text
           (if negb false && negb (N.eqb (25 mod Dec.pow10 (- -1)) 0)
            then fraction_and_float prompt (n, d)
                   (Dec.to_float (Dec.Finite false 25 (-1)))
            else fraction_only (n, d))).
Proof.
  apply (decimal_answer prompt "unary" [Token "+"; Token "2.5"] false 25 (-1)).
  - reflexivity.
  - reflexivity.
  - lia.
Defined.

(** ** [fact] of a natural number *)

(** [Impl.fact] is the factorial. *)
Lemma fact_is_factorial (n : nat) : Impl.fact n = Z.of_nat (Factorial.fact n).
Proof.
  induction n as [|n IH]; [reflexivity|].
  change (Impl.fact (S n)) with (Z.of_nat (S n) * Impl.fact n).
  change (Factorial.fact (S n)) with (S n * Factorial.fact n)%nat.
  rewrite IH, Nat2Z.inj_mul. reflexivity.
Qed.

Lemma int_answer (R : Runtime) (z : Z) :
  send_answer R (VInt z)
  = Sent (Text ("The answer is `" ++ str_of_Z z ++ "`")).
Proof. reflexivity. Qed.

(** X5: [fact] of an argument whose float is a natural number [n] (up
    to [LONG_MAX]), when the call returns in time.  On Python 3.8 and
    3.9 the call reduces to the factorial of [n], an exact [int], and
    [do_calc] answers with it when it has at most 640 digits, which
    [str] converts on every interpreter.  On Python 3.10 and later the
    call fails with a [TypeError], whose text [do_calc] sends. *)
Theorem fact_of_natural_is_exact (R : Runtime) (c : ParseTree) (a : Value)
    (x : PyFloat.float) :
  transform R c = Ok a ->
  to_float a = Ok x ->
  expired R "fact" [x] = false ->
  PyFloat.is_finite x = true ->
  PyFloat.is_integral x = true ->
  0 <= PyFloat.to_Z x <= Impl.LONG_MAX ->
  let call := Tree "function_call" [Token "fact"; c] in
  let f := Z.of_nat (Factorial.fact (Z.to_nat (PyFloat.to_Z x))) in
  (factorial_takes_float R = true ->
   transform R call = Ok (VInt f)
   /\ (f < 10 ^ 640 ->
       evaluate R call
       = Sent (Text ("The answer is `" ++ str_of_Z f ++ "`"))))
  /\ (factorial_takes_float R = false ->
      transform R call = Raise (TypeError Impl.float_is_no_integer)
      /\ evaluate R call = Sent (Text Impl.float_is_no_integer)).
Proof.
  intros Hc Ha Hexp Hf Hi Hz call f. split.
  - intros Hv.
    assert (Ht : transform R call = Ok (VInt f)).
    { unfold call, f.
      rewrite (call_of_one R "fact" c a x ltac:(simpl; tauto) Hc Ha).
      unfold PyFloat.float in *. rewrite Hexp.
      change (implementation R "fact" [x]) with (Impl.factorial R [x]).
      unfold Impl.factorial, Impl.unary_fn. rewrite Hv, Hf, Hi.
      cbn [andb negb]. cbv zeta.
      destruct (Z.ltb_spec Impl.LONG_MAX (PyFloat.to_Z x)); [lia|].
      destruct (Z.ltb_spec (PyFloat.to_Z x) 0); [lia|].
      rewrite fact_is_factorial. reflexivity. }
    split; [exact Ht|]. intros _.
    unfold evaluate, call in *. rewrite Ht. apply int_answer.
  - intros Hv. exact (fact_refuses_every_float R c a x Hv Hc Ha Hexp).
Qed.

Lemma fact_of_natural_is_exact_witness :
  (transform prompt (Tree "function_call" [Token "fact"; Token "5"])
   = Ok (VInt 120)
   /\ evaluate prompt (Tree "function_call" [Token "fact"; Token "5"])
      = Sent (Text "The answer is `120`"))
  /\ evaluate recent (Tree "function_call" [Token "fact"; Token "5"])
     = Sent (Text "'float' object cannot be interpreted as an integer").
Proof.
  split.
  - destruct (fact_of_natural_is_exact prompt (Token "5") (VStr "5")
                (S754_finite false 5629499534213120 (-50)))
      as [H _].
    + reflexivity.
    + vm_compute. reflexivity.
    + reflexivity.
    + reflexivity.
    + reflexivity.
    + vm_compute. split; discriminate.
    + destruct (H eq_refl) as (Ht & Hs). split; [exact Ht|].
      apply Hs. reflexivity.
  - destruct (fact_of_natural_is_exact recent (Token "5") (VStr "5")
                (S754_finite false 5629499534213120 (-50)))
      as [_ H].
    + reflexivity.
    + vm_compute. reflexivity.
    + reflexivity.
    + reflexivity.
    + reflexivity.
    + vm_compute. split; discriminate.
    + exact (proj2 (H eq_refl)).
Defined.

(** ** [abs] *)

(** X14: when [abs] returns, it returns a float that is not negative. *)
Theorem abs_is_never_negative (R : Runtime) (c : ParseTree) (v : Value) :
  transform R (Tree "function_call" [Token "abs"; c]) = Ok v ->
  exists x, v = VFloat x /\ PyFloat.is_negative x = false.
Proof.
  rewrite transform_Tree. intros H.
  apply bind_Ok_inv in H as (args & Hargs & H).
  rewrite transform_children_cons in Hargs. simpl in Hargs.
  apply bind_Ok_inv in Hargs as (vs & _ & Hargs). inversion Hargs. subst args.
  change (call_userfunc R "function_call" (VStr "abs" :: vs))
    with (Interpreter.nargs R 1 vs "abs" Impl.abs) in H.
  apply nargs_Ok_inv in H as (xs & _ & _ & _ & H).
  unfold Impl.abs, Impl.unary_fn, Impl.bad_call in H.
  destruct xs as [|x [|y xs]]; try discriminate. inversion H.
  exists (SFabs x). destruct x; split; reflexivity.
Qed.

Lemma abs_is_never_negative_witness :
  exists x,
    VFloat (S754_finite false 6755399441055744 (-51)) = VFloat x
    /\ PyFloat.is_negative x = false.
Proof.
  apply (abs_is_never_negative prompt
           (Tree "unary" [Token "-"; Token "3"])).
  vm_compute. reflexivity.
Defined.
